(** * go_weather-client: the cache, the two providers and the orchestrator

    A shallow embedding of [main.go].  The program's own functions
    ([main], [loadConfig], [loadCache], [saveCache], [fetchWeatherData] and
    the two [getWeatherFrom...] helpers) are transcribed one by one in
    the module [Client].  What they call in Go's standard library
    ([encoding/json], [time], [io/ioutil], [net/http]) is described first, at
    the level of detail the program can observe. *)

From Stdlib Require Import ZArith String Ascii List Floats Bool Lia.
From stdpp Require Import gmap strings list fin_maps sorting.

Open Scope Z_scope.

(** ** Errors and fallible results *)

Inductive error : Type :=
| ErrNotExist                  (* the only error [os.IsNotExist] accepts *)
| ErrIO (msg : string)         (* any other failure of a file operation *)
| ErrNet (msg : string)        (* [http.Get] or the body stream failed *)
| SyntaxError                  (* the bytes are not JSON *)
| UnmarshalError               (* a JSON value does not fit the Go type *)
| UnsupportedValueError        (* [json.Marshal] met NaN or an infinity *)
| MarshalerError.              (* [time.Time.MarshalJSON] refused the year *)

Inductive result (A : Type) : Type :=
| Ok (a : A)
| Err (e : error).
Arguments Ok {A} a.
Arguments Err {A} e.

Definition bind {A B} (r : result A) (k : A -> result B) : result B :=
  match r with
  | Ok a => k a
  | Err e => Err e
  end.

Notation "'do' x <- r ; k" := (bind r (fun x => k))
  (at level 10, x name, r at level 100, k at level 200).

(** Splits a hypothesis [bind r k = Ok b] into its successful steps. *)
Ltac inv_bind H :=
  repeat lazymatch type of H with
         | bind ?r _ = Ok _ =>
             let a := fresh "a" in
             let E := fresh "E" in
             destruct r as [a|] eqn:E; simpl in H; [|discriminate H]
         end;
  try (injection H as H); subst.

Definition is_ok {A} (r : result A) : bool :=
  match r with Ok _ => true | Err _ => false end.

Definition os_IsNotExist (e : error) : bool :=
  match e with ErrNotExist => true | _ => false end.

(** ** The program's data: lines 14 to 33 *)

Record MainT : Type := { Temp : float; Humidity : Z }.

Record Condition : Type := { Description : string }.

(** A Go slice is [None] when nil.  [len] and indexing do not tell a nil slice
    from an empty one; [json.Marshal] does. *)
Record WeatherData : Type :=
  { Main : MainT; Weather : option (list Condition); Name : string }.

Record Config : Type :=
  { OpenWeatherMapAPIKey : string; WeatherAPIKey : string }.

(** An instant, in nanoseconds since Go's zero [time.Time]
    (0001-01-01T00:00:00Z).  Zone offsets and the monotonic clock reading are
    left out: the former never changes a duration, the latter is dropped by
    [json.Marshal] and so is absent from every timestamp read back. *)
Definition Time : Type := Z.

(** A Go map is [None] when nil: reading a nil map finds nothing, assigning
    to one panics. *)
Record Cache : Type :=
  { Data : option (gmap string WeatherData); Timestamp : Time }.

Definition zero_MainT : MainT := {| Temp := 0%float; Humidity := 0 |}.
Definition zero_Condition : Condition := {| Description := "" |}.
Definition zero_WeatherData : WeatherData :=
  {| Main := zero_MainT; Weather := None; Name := "" |}.
Definition zero_Config : Config :=
  {| OpenWeatherMapAPIKey := ""; WeatherAPIKey := "" |}.
Definition zero_Cache : Cache := {| Data := None; Timestamp := 0 |}.

(** [m[k]] with the comma-ok form, and [len(s)], [s[0]] on slices. *)
Definition map_index {V} (m : option (gmap string V)) (k : string) : option V :=
  match m with
  | Some m => m !! k
  | None => None
  end.

Definition slice_list {A} (s : option (list A)) : list A :=
  match s with Some l => l | None => [] end.

(** ** float64 *)

(** Go's [float64] is the kernel's binary64.  The conversions [float64(n)] of
    an integer: to the nearest number, and of a length, which is exact. *)

Definition float64_of_Z (z : Z) : float :=
  SF2Prim (binary_normalize prec emax z 0 false).

Definition float64_of_len {A} (l : list A) : float :=
  PrimFloat.of_uint63 (Uint63.of_Z (Z.of_nat (length l))).

(** ** package time *)

Module time.

Definition Nanosecond : Z := 1.
Definition Second : Z := 1000000000 * Nanosecond.
Definition Minute : Z := 60 * Second.

Definition minDuration : Z := - 2 ^ 63.
Definition maxDuration : Z := 2 ^ 63 - 1.

(** [t.Sub(u)]: the difference, pinned to the ends of [int64] when it does
    not fit. *)
Definition Sub (t u : Time) : Z :=
  Z.max minDuration (Z.min maxDuration (t - u)).

(** [time.Since(t)] at a moment when the clock reads [now]. *)
Definition Since (now t : Time) : Z := Sub now t.

(** [d.Minutes()], as the package computes it: Go's [/] and [%] truncate
    towards zero. *)
Definition Minutes (d : Z) : float :=
  (float64_of_Z (Z.quot d Minute)
   + float64_of_Z (Z.rem d Minute) / 60000000000)%float.

(** [d.Minutes() < m], for a whole number of minutes [m], decided on the
    nanosecond counts: the quotient in [Minutes] is far below 2^53 and the
    remainder term stays strictly inside (-1, 1), so the sum is below [m]
    exactly when [d] is below [m] minutes. *)
Definition Minutes_lt (d m : Z) : bool := d <? m * Minute.

(** The years that [Time.MarshalJSON] accepts, 0 to 9999: year 0 is leap
    and starts 366 days before the zero time; year 10000 starts 3652059
    days after it. *)
Definition day : Z := 86400 * Second.
Definition marshalable (t : Time) : bool :=
  (- 366 * day <=? t) && (t <? 3652059 * day).

(** The text [Time.MarshalJSON] writes (layout RFC3339Nano, zone Z): the
    civil date of the day count, then the time of day, then the fraction
    with its trailing zeros cut. *)
Fixpoint digits (w : nat) (n : Z) : string :=
  match w with
  | O => ""
  | S w' => digits w' (n / 10) +:+ String (ascii_of_N (48 + Z.to_N (n mod 10))) ""
  end.

Fixpoint fraction (w : nat) (n : Z) : string :=
  match w with
  | O => ""
  | S w' => if n mod 10 =? 0 then fraction w' (n / 10) else "." +:+ digits w n
  end.

Definition civil (days : Z) : Z * Z * Z :=
  let z := days + 306 in
  let era := z / 146097 in
  let doe := z - era * 146097 in
  let yoe := (doe - doe / 1460 + doe / 36524 - doe / 146096) / 365 in
  let doy := doe - (365 * yoe + yoe / 4 - yoe / 100) in
  let mp := (5 * doy + 2) / 153 in
  let d := doy - (153 * mp + 2) / 5 + 1 in
  let m := if mp <? 10 then mp + 3 else mp - 9 in
  let y := yoe + era * 400 + (if m <=? 2 then 1 else 0) in
  (y, m, d).

Definition RFC3339Nano (t : Time) : string :=
  let '(y, m, d) := civil (t / day) in
  let s := (t mod day) / Second in
  digits 4 y +:+ "-" +:+ digits 2 m +:+ "-" +:+ digits 2 d +:+ "T" +:+
  digits 2 (s / 3600) +:+ ":" +:+ digits 2 (s / 60 mod 60) +:+ ":" +:+
  digits 2 (s mod 60) +:+ fraction 9 (t mod Second) +:+ "Z".

End time.

(** ** Strings as Go has them: byte sequences, UTF-8 by convention *)

Module utf8.

Definition byte_in (lo hi : N) (c : ascii) : bool :=
  let n := N_of_ascii c in (lo <=? n)%N && (n <=? hi)%N.

Definition cont (c : ascii) : bool := byte_in 128 191 c.

(** The replacement character U+FFFD, as its three bytes. *)
Definition RuneError : string :=
  String (ascii_of_N 239) (String (ascii_of_N 191) (String (ascii_of_N 189) "")).

(** Range of the second byte, by the first byte of a multi-byte rune
    ([utf8.acceptRanges]); [None] when the first byte cannot start one. *)
Definition second_byte (c : ascii) : option (N * N * nat) :=
  let n := N_of_ascii c in
  if byte_in 194 223 c then Some (128%N, 191%N, 0%nat)
  else if (n =? 224)%N then Some (160%N, 191%N, 1%nat)
  else if byte_in 225 236 c || byte_in 238 239 c then Some (128%N, 191%N, 1%nat)
  else if (n =? 237)%N then Some (128%N, 159%N, 1%nat)
  else if (n =? 240)%N then Some (144%N, 191%N, 2%nat)
  else if byte_in 241 243 c then Some (128%N, 191%N, 2%nat)
  else if (n =? 244)%N then Some (128%N, 143%N, 2%nat)
  else None.

(** What the JSON encoder writes for a string and the decoder reads back:
    every byte that [utf8.DecodeRuneInString] rejects becomes U+FFFD, one
    replacement per byte; well-formed runes are kept. *)
Fixpoint coerce (s : string) : string :=
  match s with
  | EmptyString => EmptyString
  | String c s1 =>
      if byte_in 0 127 c then String c (coerce s1)
      else
        let bad := RuneError +:+ coerce s1 in
        match second_byte c, s1 with
        | Some (lo, hi, more), String c1 s2 =>
            if byte_in lo hi c1 then
              match more, s2 with
              | O, _ => String c (String c1 (coerce s2))
              | S more', String c2 s3 =>
                  if cont c2 then
                    match more', s3 with
                    | O, _ => String c (String c1 (String c2 (coerce s3)))
                    | S _, String c3 s4 =>
                        if cont c3
                        then String c (String c1 (String c2 (String c3 (coerce s4))))
                        else bad
                    | S _, EmptyString => bad
                    end
                  else bad
              | S _, EmptyString => bad
              end
            else bad
        | _, _ => bad
        end
  end.

Definition ValidString (s : string) : bool := String.eqb (coerce s) s.

End utf8.

(** ** package encoding/json *)

(** A JSON text is kept as the tree the package's scanner builds from it.
    A scalar token stands for what the package's readers make of it: a number
    for the [float64] that [strconv.ParseFloat] returns and the integer that
    [strconv.ParseInt] returns (each [None] when that reader rejects the
    token), a string for its unquoted text and for the instant that
    [time.Time.UnmarshalJSON] reads from it ([None] when it is not an RFC 3339
    timestamp).  Bytes that are not JSON at all are [Malformed]. *)

Module json.

Record number : Type := { f64 : option float; i64 : option Z }.

Unset Elimination Schemes.
Inductive value : Type :=
| Null
| Bool (b : bool)
| Number (n : number)
| Str (text : string) (stamp : option Time)
| Array (l : list value)
| Object (l : list (string * value)).
Set Elimination Schemes.

Inductive document : Type :=
| Malformed
| Text (v : value).

(** *** Unmarshal *)

(** Go decodes INTO a value that already exists: [null] leaves a scalar or
    a struct as it was and sets a slice or a map to nil; a token of the
    wrong kind, or out of range for the Go type, is an error. *)

Definition string_into (old : string) (j : value) : result string :=
  match j with
  | Null => Ok old
  | Str s _ => Ok s
  | _ => Err UnmarshalError
  end.

Definition float64_into (old : float) (j : value) : result float :=
  match j with
  | Null => Ok old
  | Number {| f64 := Some x |} =>
      if is_finite x then Ok x else Err UnmarshalError
  | _ => Err UnmarshalError
  end.

Definition fits_int (z : Z) : bool := (- 2 ^ 63 <=? z) && (z <? 2 ^ 63).

Definition int_into (old : Z) (j : value) : result Z :=
  match j with
  | Null => Ok old
  | Number {| i64 := Some z |} =>
      if fits_int z then Ok z else Err UnmarshalError
  | _ => Err UnmarshalError
  end.

Definition Time_into (old : Time) (j : value) : result Time :=
  match j with
  | Null => Ok old
  | Str _ (Some t) => Ok t
  | _ => Err UnmarshalError
  end.

Fixpoint each {A B} (f : A -> result B) (l : list A) : result (list B) :=
  match l with
  | [] => Ok []
  | a :: l' => do b <- f a; do bs <- each f l'; Ok (b :: bs)
  end.

(** An array is decoded into the slice that is there, element by element
    and in place: element [i] into what the backing array holds at [i], be
    it an element of the old slice or one left beyond its length by an
    earlier, longer array, and into the zero value from the end of the
    backing array on.  [spare] is what the backing array holds beyond the
    length of the slice.  [null] sets the slice to nil and the empty array to
    a fresh empty slice.  This shows when a key is met more than once. *)
Fixpoint elements_into {A} (zero : A) (elem : A -> value -> result A)
    (backing : list A) (l : list value) : result (list A) :=
  match l with
  | [] => Ok []
  | j :: l' =>
      do a <- elem (hd zero backing) j;
      do rest <- elements_into zero elem (tl backing) l';
      Ok (a :: rest)
  end.

Definition slice_into {A} (zero : A) (elem : A -> value -> result A)
    (old : option (list A)) (spare : list A) (j : value)
    : result (option (list A) * list A) :=
  match j with
  | Null => Ok (None, [])
  | Array [] => Ok (Some [], [])
  | Array l =>
      let backing := slice_list old ++ spare in
      do l' <- elements_into zero elem backing l;
      Ok (Some l', drop (length l) backing)
  | _ => Err UnmarshalError
  end.

(** Every value of a map starts from the zero value of its type. *)

Definition map_into {A} (zero : A) (elem : A -> value -> result A)
    (old : option (gmap string A)) (j : value)
    : result (option (gmap string A)) :=
  match j with
  | Null => Ok None
  | Object kvs =>
      do m <- fold_left
                (fun acc kv =>
                   do m <- acc; do a <- elem zero kv.2; Ok (<[kv.1 := a]> m))
                kvs (Ok (default ∅ old));
      Ok (Some m)
  | _ => Err UnmarshalError
  end.

(** Keys select struct fields without regard to case; besides the ASCII
    letters, the Kelvin sign folds to k and the long s to s. *)
Definition lower (c : ascii) : ascii :=
  if utf8.byte_in 65 90 c then ascii_of_N (N_of_ascii c + 32) else c.

Definition is_byte (n : N) (c : ascii) : bool := (N_of_ascii c =? n)%N.

Fixpoint foldName (s : string) : string :=
  match s with
  | EmptyString => EmptyString
  | String c s1 =>
      let plain := String (lower c) (foldName s1) in
      match s1 with
      | String c1 s2 =>
          if is_byte 197 c && is_byte 191 c1 then String "s" (foldName s2)
          else
            match s2 with
            | String c2 s3 =>
                if is_byte 226 c && is_byte 132 c1 && is_byte 170 c2
                then String "k" (foldName s3)
                else plain
            | EmptyString => plain
            end
      | EmptyString => plain
      end
  end.

(** A struct is filled key by key, in the order of the text; a key that
    names no field is skipped, a key met twice is decoded twice. *)
Definition struct_into {A} (field : string -> option (A -> value -> result A))
    (old : A) (j : value) : result A :=
  match j with
  | Null => Ok old
  | Object kvs =>
      fold_left
        (fun acc kv =>
           do a <- acc;
           match field (foldName kv.1) with
           | Some into => into a kv.2
           | None => Ok a
           end)
        kvs (Ok old)
  | _ => Err UnmarshalError
  end.

Definition MainT_into : MainT -> value -> result MainT :=
  struct_into (fun key =>
    if String.eqb key "temp" then
      Some (fun m j => do x <- float64_into (Temp m) j;
                       Ok {| Temp := x; Humidity := Humidity m |})
    else if String.eqb key "humidity" then
      Some (fun m j => do h <- int_into (Humidity m) j;
                       Ok {| Temp := Temp m; Humidity := h |})
    else None).

Definition Condition_into : Condition -> value -> result Condition :=
  struct_into (fun key =>
    if String.eqb key "description" then
      Some (fun c j => do s <- string_into (Description c) j;
                       Ok {| Description := s |})
    else None).

(** The second component is what the backing array of [Weather] holds
    beyond its length; it is empty for a reading that was just declared. *)
Definition WeatherData_into (old : WeatherData) (j : value)
    : result WeatherData :=
  do p <- struct_into (fun key =>
    if String.eqb key "main" then
      Some (fun (p : WeatherData * list Condition) j =>
              do m <- MainT_into (Main p.1) j;
              Ok ({| Main := m; Weather := Weather p.1; Name := Name p.1 |},
                  p.2))
    else if String.eqb key "weather" then
      Some (fun p j =>
              do l <- slice_into zero_Condition Condition_into
                        (Weather p.1) p.2 j;
              Ok ({| Main := Main p.1; Weather := l.1; Name := Name p.1 |},
                  l.2))
    else if String.eqb key "name" then
      Some (fun p j =>
              do s <- string_into (Name p.1) j;
              Ok ({| Main := Main p.1; Weather := Weather p.1; Name := s |},
                  p.2))
    else None) (old, []) j;
  Ok p.1.

Definition Config_into : Config -> value -> result Config :=
  struct_into (fun key =>
    if String.eqb key "openweathermap_api_key" then
      Some (fun c j => do s <- string_into (OpenWeatherMapAPIKey c) j;
                       Ok {| OpenWeatherMapAPIKey := s;
                             WeatherAPIKey := WeatherAPIKey c |})
    else if String.eqb key "weatherapi_api_key" then
      Some (fun c j => do s <- string_into (WeatherAPIKey c) j;
                       Ok {| OpenWeatherMapAPIKey := OpenWeatherMapAPIKey c;
                             WeatherAPIKey := s |})
    else None).

Definition Cache_into : Cache -> value -> result Cache :=
  struct_into (fun key =>
    if String.eqb key "data" then
      Some (fun c j => do m <- map_into zero_WeatherData WeatherData_into (Data c) j;
                       Ok {| Data := m; Timestamp := Timestamp c |})
    else if String.eqb key "timestamp" then
      Some (fun c j => do t <- Time_into (Timestamp c) j;
                       Ok {| Data := Data c; Timestamp := t |})
    else None).

(** [json.Unmarshal(data, &v)] for a freshly declared [v]. *)
Definition Unmarshal {A} (into : A -> value -> result A) (zero : A)
    (data : document) : result A :=
  match data with
  | Malformed => Err SyntaxError
  | Text v => into zero v
  end.

(** *** Marshal *)

(** A [float64] is written with the fewest digits that read back as the
    same [float64], and with the nearest such number when there are several.
    For [x = m * 2 ^ e] with [0 < e] these are the numbers within half the
    distance to the neighbours of [x], ends included when [m] is even; below
    a power of two the neighbour is at half the distance. *)
Definition reads_back (m e c : Z) : bool :=
  let x := m * 2 ^ e in
  let below := if m =? 2 ^ 52 then 2 ^ (e - 1) else 2 ^ e in
  let lo := 2 * x - below in
  let hi := 2 * x + 2 ^ e in
  if Z.even m then (lo <=? 2 * c) && (2 * c <=? hi)
  else (lo <? 2 * c) && (2 * c <? hi).

(** The number written for [m * 2 ^ e] with at least [k] zeros at its
    end, if there is one, and with fewer otherwise. *)
Fixpoint shortest (k : nat) (m e : Z) : Z :=
  let x := m * 2 ^ e in
  match k with
  | O => x
  | S k' =>
      let p := 10 ^ Z.of_nat k in
      let down := x / p * p in
      let up := down + p in
      let okdown := reads_back m e down in
      let okup := reads_back m e up in
      if okdown && okup then
        if 2 * (x - down) <? p then down
        else if p <? 2 * (x - down) then up
        else if Z.even (x / p) then down else up
      else if okdown then down
      else if okup then up
      else shortest k' m e
  end.

(** The integer reading of the token written for a finite [x]: Go prints
    an integral [x] below 1e21 without a fraction or an exponent, and such
    a token is an integer to [ParseInt] when it fits 64 bits.  An integer
    below 2 ^ 53 is written with all its digits. *)
Definition float_int (x : float) : option Z :=
  match Prim2SF x with
  | S754_zero _ => Some 0
  | S754_finite s m e =>
      let z := if 0 <? e then Some (shortest 20 (Z.pos m) e)
               else if Z.pos m mod 2 ^ (- e) =? 0
                    then Some (Z.pos m / 2 ^ (- e)) else None in
      match z with
      | Some z => let v := if s then - z else z in
                  if fits_int v then Some v else None
      | None => None
      end
  | _ => None
  end.

Definition of_float64 (x : float) : result value :=
  if is_finite x
  then Ok (Number {| f64 := Some x; i64 := float_int x |})
  else Err UnsupportedValueError.

Definition of_int (z : Z) : value :=
  Number {| f64 := Some (float64_of_Z z); i64 := Some z |}.

(** The text written for a Go string is its UTF-8 coercion.  The encoder
    puts such a token only where a string is read back, so its [stamp] is
    left empty. *)
Definition of_string (s : string) : value := Str (utf8.coerce s) None.

Definition of_Time (t : Time) : result value :=
  if time.marshalable t
  then Ok (Str (time.RFC3339Nano t) (Some t))
  else Err MarshalerError.

Definition of_MainT (m : MainT) : result value :=
  do t <- of_float64 (Temp m);
  Ok (Object [("temp", t); ("humidity", of_int (Humidity m))]).

Definition of_Condition (c : Condition) : result value :=
  Ok (Object [("description", of_string (Description c))]).

Definition of_slice {A} (elem : A -> result value) (s : option (list A))
    : result value :=
  match s with
  | None => Ok Null
  | Some l => do vs <- each elem l; Ok (Array vs)
  end.

Definition of_WeatherData (w : WeatherData) : result value :=
  do m <- of_MainT (Main w);
  do l <- of_slice of_Condition (Weather w);
  Ok (Object [("main", m); ("weather", l); ("name", of_string (Name w))]).

(** A map is written with its keys in byte order. *)
Definition key_le {A} (a b : string * A) : Prop := String.leb a.1 b.1 = true.

#[local] Instance key_le_dec {A} : RelDecision (@key_le A).
Proof. unfold key_le. solve_decision. Defined.

Definition of_map {A} (elem : A -> result value) (m : option (gmap string A))
    : result value :=
  match m with
  | None => Ok Null
  | Some m =>
      do kvs <- each (fun kv => do v <- elem kv.2; Ok (utf8.coerce kv.1, v))
                     (merge_sort key_le (map_to_list m));
      Ok (Object kvs)
  end.

Definition of_Cache (c : Cache) : result value :=
  do d <- of_map of_WeatherData (Data c);
  do t <- of_Time (Timestamp c);
  Ok (Object [("data", d); ("timestamp", t)]).

(** [json.MarshalIndent(v, "", "  ")]: the indentation is white space
    between tokens and leaves the tree as it is. *)
Definition MarshalIndent {A} (enc : A -> result value) (v : A)
    : result document :=
  do j <- enc v; Ok (Text j).

End json.

(** ** Files, the network, the clock and the scheduler *)

(** A path holds nothing, a file whose bytes cannot be read, or bytes. *)
Inductive file : Type :=
| Unreadable (msg : string)
| Regular (data : json.document).

Abbreviation filesystem := (gmap string file).

Module ioutil.

Definition ReadFile (fs : filesystem) (name : string) : result json.document :=
  match fs !! name with
  | None => Err ErrNotExist
  | Some (Unreadable msg) => Err (ErrIO msg)
  | Some (Regular data) => Ok data
  end.

(** [WriteFile] opens the file for writing, creating it or cutting it to
    length zero, writes the bytes and closes the file; it returns the first
    error of the three steps.  A call that fails on the open leaves the disk
    as it was.  One that fails on the write leaves the file cut short: empty,
    or with a proper start of the bytes, which is no JSON text.  One that
    fails on the close has written all the bytes. *)
Inductive write_stage : Type := Opening | Writing | Closing.

Record write_failure : Type := { reason : error; stage : write_stage }.

Definition WriteFile (fault : option write_failure) (fs : filesystem)
    (name : string) (data : json.document) : option error * filesystem :=
  match fault with
  | Some f =>
      (Some (reason f),
       match stage f with
       | Opening => fs
       | Writing => <[name := Regular json.Malformed]> fs
       | Closing => <[name := Regular data]> fs
       end)
  | None => (None, <[name := Regular data]> fs)
  end.

End ioutil.

(** What [http.Get] hands back for a URL: an error, or a response with its
    status and a body stream that [ioutil.ReadAll] drains or fails on. *)
Record Response : Type :=
  { StatusCode : Z; Body : result json.document }.

Record World : Type :=
  { flag_city : string;                  (* the value of -city *)
    disk : filesystem;
    write_fault : option ioutil.write_failure;   (* see [ioutil.WriteFile] *)
    http_Get : string -> result Response;
    clock_at_check : Time;               (* read by [time.Since], line 55 *)
    clock_at_store : Time;               (* read by [time.Now], line 113 *)
    owm_first : bool }.                  (* which goroutine locks first *)

(** ** What a run leaves behind *)

Inductive line : Type :=
| CityRequired                           (* line 40 *)
| ErrorLoadingConfig (e : error)         (* line 46 *)
| ErrorLoadingCache (e : error)          (* line 52 *)
| WeatherInFromCache (name : string)     (* line 57 *)
| Temperature (t : float)                (* lines 58 and 107, with %.2f *)
| HumidityPercent (h : Z)                (* line 59 *)
| DescriptionOf (s : string)             (* line 60 *)
| FailedToRetrieve                       (* line 94 *)
| AverageTemperatureIn (name : string)   (* line 106 *)
| ErrorSavingCache (e : error).          (* line 116 *)

Inductive panic : Type :=
| IndexOutOfRange                        (* index 0 of an empty slice *)
| NilMapAssignment.                      (* assignment to entry in nil map *)

Inductive status : Type :=
| Exit (code : Z)
| Panicked (p : panic).

Record Run : Type :=
  { stdout : list line;
    exit : status;
    requests : list string;              (* the URLs given to [http.Get] *)
    cache_var : option Cache;            (* the variable [cache] at the end *)
    disk_after : filesystem }.

(** ** The program *)

Module Client.

(** Lines 121 to 134. *)
Definition loadConfig (fs : filesystem) (filename : string) : result Config :=
  match ioutil.ReadFile fs filename with
  | Err err => Err err
  | Ok data =>
      match json.Unmarshal json.Config_into zero_Config data with
      | Err err => Err err
      | Ok config => Ok config
      end
  end.

(** Lines 136 to 152.  The pair is Go's result, a pointer to a
    [Cache] and an error: [None] is nil on either side. *)
Definition loadCache (fs : filesystem) (filename : string)
    : option Cache * option error :=
  match ioutil.ReadFile fs filename with
  | Err err =>
      if os_IsNotExist err then (None, None)
      else (None, Some err)
  | Ok data =>
      match json.Unmarshal json.Cache_into zero_Cache data with
      | Err err => (None, Some err)
      | Ok cache => (Some cache, None)
      end
  end.

(** Lines 154 to 161. *)
Definition saveCache (fault : option ioutil.write_failure) (fs : filesystem)
    (filename : string) (cache : Cache) : option error * filesystem :=
  match json.MarshalIndent json.of_Cache cache with
  | Err err => (Some err, fs)
  | Ok data => ioutil.WriteFile fault fs filename data
  end.

(** Lines 173 to 192.  The status of the response is not looked at. *)
Definition fetchWeatherData (get : string -> result Response) (url : string)
    : result WeatherData :=
  match get url with
  | Err err => Err err
  | Ok resp =>
      match Body resp with
      | Err err => Err err
      | Ok body =>
          match json.Unmarshal json.WeatherData_into zero_WeatherData body with
          | Err err => Err err
          | Ok weatherData => Ok weatherData
          end
      end
  end.

(** Lines 163 to 171: [fmt.Sprintf] with [%s] only is concatenation. *)
Definition OpenWeatherMap_url (city apiKey : string) : string :=
  "http://api.openweathermap.org/data/2.5/weather?q=" +:+ city +:+
  "&appid=" +:+ apiKey +:+ "&units=metric".

Definition WeatherAPI_url (city apiKey : string) : string :=
  "http://api.weatherapi.com/v1/current.json?key=" +:+ apiKey +:+
  "&q=" +:+ city +:+ "&aqi=no".

Definition getWeatherFromOpenWeatherMap (get : string -> result Response)
    (city apiKey : string) : result WeatherData :=
  fetchWeatherData get (OpenWeatherMap_url city apiKey).

Definition getWeatherFromWeatherAPI (get : string -> result Response)
    (city apiKey : string) : result WeatherData :=
  fetchWeatherData get (WeatherAPI_url city apiKey).

(** Lines 73 to 77 and 84 to 88: a goroutine appends its reading when its
    call returned no error, and nothing otherwise. *)
Definition appended (r : result WeatherData) : list WeatherData :=
  match r with
  | Ok data => [data]
  | Err _ => []
  end.

(** Lines 65 to 91.  Both goroutines run to their end whatever the other
    does; the list holds their appends in the order the mutex was taken. *)
Definition collect (first_owm : bool) (owm wapi : result WeatherData)
    : list WeatherData :=
  if first_owm then appended owm ++ appended wapi
  else appended wapi ++ appended owm.

(** Lines 99 to 103. *)
Definition totalTemp (weatherDataList : list WeatherData) : float :=
  fold_left (fun total data => (total + Temp (Main data))%float)
            weatherDataList 0%float.

Definition avgTemp (weatherDataList : list WeatherData) : float :=
  (totalTemp weatherDataList / float64_of_len weatherDataList)%float.

(** Line 55. *)
Definition fresh (now : Time) (cache : Cache) : bool :=
  time.Minutes_lt (time.Since now (Timestamp cache)) 10.

(** Lines 56 to 61: the cache hit. *)
Definition report_cached (out : list line) (cache : option Cache)
    (fs : filesystem) (weatherData : WeatherData) : Run :=
  let out := out ++ [WeatherInFromCache (Name weatherData);
                     Temperature (Temp (Main weatherData));
                     HumidityPercent (Humidity (Main weatherData))] in
  match slice_list (Weather weatherData) with
  | first :: _ =>
      {| stdout := out ++ [DescriptionOf (Description first)];
         exit := Exit 0; requests := [];
         cache_var := cache; disk_after := fs |}
  | [] =>
      {| stdout := out; exit := Panicked IndexOutOfRange; requests := [];
         cache_var := cache; disk_after := fs |}
  end.

(** The list of line 66 when [wg.Wait()] returns on line 91. *)
Definition weatherDataList (w : World) (config : Config) : list WeatherData :=
  collect (owm_first w)
    (getWeatherFromOpenWeatherMap (http_Get w) (flag_city w)
       (OpenWeatherMapAPIKey config))
    (getWeatherFromWeatherAPI (http_Get w) (flag_city w)
       (WeatherAPIKey config)).

(** Lines 65 to 117: the fetch, the report and the update of the cache. *)
Definition fetch_and_store (w : World) (config : Config) (out : list line)
    (cache : option Cache) : Run :=
  let city := flag_city w in
  let urls := [OpenWeatherMap_url city (OpenWeatherMapAPIKey config);
               WeatherAPI_url city (WeatherAPIKey config)] in
  match weatherDataList w config with
  | [] =>
      {| stdout := out ++ [FailedToRetrieve]; exit := Exit 1;
         requests := urls; cache_var := cache; disk_after := disk w |}
  | first :: rest =>
      let weatherDataList := first :: rest in
      let out := out ++ [AverageTemperatureIn (Name first);
                         Temperature (avgTemp weatherDataList)] in
      let cache :=
        match cache with
        | None => {| Data := Some ∅; Timestamp := 0 |}
        | Some cache => cache
        end in
      match Data cache with
      | None =>
          {| stdout := out; exit := Panicked NilMapAssignment;
             requests := urls; cache_var := Some cache;
             disk_after := disk w |}
      | Some data =>
          let cache := {| Data := Some (<[city := first]> data);
                          Timestamp := clock_at_store w |} in
          match saveCache (write_fault w) (disk w) "cache.json" cache with
          | (Some err, fs) =>
              {| stdout := out ++ [ErrorSavingCache err]; exit := Exit 0;
                 requests := urls; cache_var := Some cache;
                 disk_after := fs |}
          | (None, fs) =>
              {| stdout := out; exit := Exit 0; requests := urls;
                 cache_var := Some cache; disk_after := fs |}
          end
      end
  end.

(** Lines 35 to 118. *)
Definition main (w : World) : Run :=
  let city := flag_city w in
  if String.eqb city "" then
    {| stdout := [CityRequired]; exit := Exit 1; requests := [];
       cache_var := None; disk_after := disk w |}
  else
    match loadConfig (disk w) "config.json" with
    | Err err =>
        {| stdout := [ErrorLoadingConfig err]; exit := Exit 1;
           requests := []; cache_var := None; disk_after := disk w |}
    | Ok config =>
        let '(cache, err) := loadCache (disk w) "cache.json" in
        let out := match err with
                   | Some err => [ErrorLoadingCache err]
                   | None => []
                   end in
        match cache with
        | Some c =>
            if fresh (clock_at_check w) c then
              match map_index (Data c) city with
              | Some weatherData =>
                  report_cached out cache (disk w) weatherData
              | None => fetch_and_store w config out cache
              end
            else fetch_and_store w config out cache
        | None => fetch_and_store w config out cache
        end
    end.

End Client.

(** * Notions the properties are stated with *)

(** The spec's words for the aggregate: the arithmetic mean of
    [temperatureCelsius] across the readings, the sum over their number. *)
Definition temperatureCelsius (reading : WeatherData) : float :=
  Temp (Main reading).

Fixpoint sum (xs : list float) : float :=
  match xs with
  | [] => 0%float
  | x :: xs' => (x + sum xs')%float
  end.

Definition arithmetic_mean (xs : list float) : float :=
  (sum xs / float64_of_len xs)%float.

(** What line 50 binds: the loaded cache and the line printed when loading
    failed. *)
Definition loaded (w : World) : option Cache :=
  (Client.loadCache (disk w) "cache.json").1.

Definition preamble (w : World) : list line :=
  match (Client.loadCache (disk w) "cache.json").2 with
  | Some err => [ErrorLoadingCache err]
  | None => []
  end.

(** The reading that lines 55 and 56 find, if they find one. *)
Definition hit (w : World) : option WeatherData :=
  match loaded w with
  | Some c =>
      if Client.fresh (clock_at_check w) c
      then map_index (Data c) (flag_city w) else None
  | None => None
  end.

(** The run goes to the providers. *)
Definition fetches (r : Run) : Prop := requests r <> [].

(** The run went to the providers and ended with exit code 0. *)
Definition successful_fetch (r : Run) : Prop := fetches r /\ exit r = Exit 0.

(** The run goes to the providers and at least one of them returns a
    reading: line 99 is reached with [first :: rest] in [weatherDataList]. *)
Definition collects (w : World) (first : WeatherData)
    (rest : list WeatherData) : Prop :=
  exists config,
    flag_city w <> "" /\
    Client.loadConfig (disk w) "config.json" = Ok config /\
    hit w = None /\
    Client.weatherDataList w config = first :: rest.

(** The lines that report a failure to load or save the cache. *)
Definition diagnostic (l : line) : Prop :=
  match l with
  | ErrorLoadingCache _ | ErrorSavingCache _ => True
  | _ => False
  end.

(** The last line of a cache hit: the description at index 0, if there is
    one. *)
Definition description_line (reading : WeatherData) : list line :=
  match slice_list (Weather reading) with
  | first :: _ => [DescriptionOf (Description first)]
  | [] => []
  end.

(** What [json.Marshal] writes without loss: finite temperatures, a
    humidity within Go's [int], text that is UTF-8, a year from 0 to 9999. *)
Definition WeatherData_encodable (r : WeatherData) : Prop :=
  is_finite (Temp (Main r)) = true /\
  json.fits_int (Humidity (Main r)) = true /\
  utf8.ValidString (Name r) = true /\
  Forall (fun c => utf8.ValidString (Description c) = true)
         (slice_list (Weather r)).

Definition Cache_encodable (c : Cache) : Prop :=
  time.marshalable (Timestamp c) = true /\
  forall city r,
    map_index (Data c) city = Some r ->
    utf8.ValidString city = true /\ WeatherData_encodable r.

(** The same world with the other goroutine first at the mutex. *)
Definition other_schedule (w : World) : World :=
  {| flag_city := flag_city w; disk := disk w; write_fault := write_fault w;
     http_Get := http_Get w; clock_at_check := clock_at_check w;
     clock_at_store := clock_at_store w; owm_first := negb (owm_first w) |}.

(** What the decoder guarantees of a reading's numbers: a finite
    temperature and a humidity within Go's [int]. *)
Definition numbers_in_range (r : WeatherData) : Prop :=
  is_finite (Temp (Main r)) = true /\
  json.fits_int (Humidity (Main r)) = true.

(** Every key, name and description of a cache is UTF-8. *)
Definition text_is_utf8 (c : Cache) : Prop :=
  forall city r,
    map_index (Data c) city = Some r ->
    utf8.ValidString city = true /\
    utf8.ValidString (Name r) = true /\
    Forall (fun d => utf8.ValidString (Description d) = true)
           (slice_list (Weather r)).

(** The same world with another answer of the disk to the write. *)
Definition with_write_fault (fault : option ioutil.write_failure) (w : World)
    : World :=
  {| flag_city := flag_city w; disk := disk w; write_fault := fault;
     http_Get := http_Get w; clock_at_check := clock_at_check w;
     clock_at_store := clock_at_store w; owm_first := owm_first w |}.

(** ** Concrete worlds *)

Module Scenario.

Import json.

Definition at_unix (seconds : Z) : Time :=
  (719162 * 86400 + seconds) * time.Second.

(** 2026-10-30T12:00:00Z. *)
Definition noon : Time := at_unix 1793361600.

Definition real (x : float) : value :=
  Number {| f64 := Some x; i64 := float_int x |}.

Definition config_json : value :=
  Object [("openweathermap_api_key", Str "owm-key" None);
          ("weatherapi_api_key", Str "wapi-key" None)].

(** A body in the shape of OpenWeatherMap's answer. *)
Definition reading_json (temp : float) (humidity : Z) (weather : list string)
    (name : string) : value :=
  Object [("main", Object [("temp", real temp); ("humidity", of_int humidity)]);
          ("weather",
           Array (map (fun d => Object [("description", Str d None)]) weather));
          ("name", Str name None)].

(** A body in the shape of WeatherAPI's answer: no key of it names a field
    of [WeatherData]. *)
Definition weatherapi_json : value :=
  Object [("location", Object [("name", Str "London" None)]);
          ("current",
           Object [("temp_c", real 20); ("humidity", of_int 70);
                   ("condition", Object [("text", Str "Sunny" None)])])].

(** The body OpenWeatherMap sends with status 404. *)
Definition not_found_json : value :=
  Object [("cod", Str "404" None); ("message", Str "city not found" None)].

Definition cache_json (city : string) (entry : value) (t : Time) : value :=
  Object [("data", Object [(city, entry)]);
          ("timestamp", Str (time.RFC3339Nano t) (Some t))].

Definition disk_with (cache : option value) : filesystem :=
  let base : filesystem := {["config.json" := Regular (Text config_json)]} in
  match cache with
  | Some j => <["cache.json" := Regular (Text j)]> base
  | None => base
  end.

Definition answers (owm wapi : result Response) (url : string)
    : result Response :=
  if String.eqb url (Client.OpenWeatherMap_url "London" "owm-key") then owm
  else if String.eqb url (Client.WeatherAPI_url "London" "wapi-key") then wapi
  else Err (ErrNet "no such host").

Definition answer (code : Z) (body : value) : result Response :=
  Ok {| StatusCode := code; Body := Ok (Text body) |}.

Definition down : result Response := Err (ErrNet "connection refused").

Definition world (files : filesystem) (owm wapi : result Response) : World :=
  {| flag_city := "London"; disk := files; write_fault := None;
     http_Get := answers owm wapi;
     clock_at_check := noon; clock_at_store := noon + time.Second;
     owm_first := true |}.

Definition london : value := reading_json 21.5 80 ["clear sky"] "London".

(** No cache yet; one provider answers. *)
Definition first_run : World := world (disk_with None) (answer 200 london) down.

(** No cache yet; both answer, with 10 and 20 degrees. *)
Definition both_answer : World :=
  world (disk_with None)
        (answer 200 (reading_json 10 80 ["mist"] "London"))
        (answer 200 (reading_json 20 60 ["haze"] "Greater London")).

(** No cache yet; neither answers. *)
Definition offline : World := world (disk_with None) down down.

(** No cache yet; OpenWeatherMap answers 404 with its error body. *)
Definition unknown_city : World :=
  world (disk_with None) (answer 404 not_found_json) down.

(** A cache written five minutes ago, and one written ten minutes ago. *)
Definition cached : World :=
  world (disk_with (Some (cache_json "London" london (noon - 5 * time.Minute))))
        (answer 200 (reading_json 3 40 ["snow"] "London")) down.

Definition stale : World :=
  world (disk_with (Some (cache_json "London" london (noon - 10 * time.Minute))))
        (answer 200 (reading_json 3 40 ["snow"] "London")) down.

(** A cache written five minutes ago whose entry has an empty weather
    array. *)
Definition cached_no_weather : World :=
  world (disk_with (Some (cache_json "London"
                            (reading_json 21.5 80 [] "London")
                            (noon - 5 * time.Minute))))
        down down.

(** A cache file that holds the empty object. *)
Definition cache_without_data : World :=
  world (disk_with (Some (Object []))) (answer 200 london) down.

(** Only WeatherAPI answers; then a second run a minute later, on the disk
    the first one left. *)
Definition weatherapi_only : World :=
  world (disk_with None) down (answer 200 weatherapi_json).

Definition a_minute_later : World :=
  {| flag_city := "London";
     disk := disk_after (Client.main weatherapi_only);
     write_fault := None; http_Get := answers down down;
     clock_at_check := noon + time.Minute;
     clock_at_store := noon + time.Minute + time.Second;
     owm_first := true |}.

(** A cache whose one temperature is not a number. *)
Definition nan_cache : Cache :=
  {| Data := Some {["London" :=
                      {| Main := {| Temp := nan; Humidity := 80 |};
                         Weather := Some [{| Description := "clear sky" |}];
                         Name := "London" |}]};
     Timestamp := noon |}.

Definition keys : Config :=
  {| OpenWeatherMapAPIKey := "owm-key"; WeatherAPIKey := "wapi-key" |}.

Definition mist : WeatherData :=
  {| Main := {| Temp := 10; Humidity := 80 |};
     Weather := Some [{| Description := "mist" |}];
     Name := "London" |}.

Definition haze : WeatherData :=
  {| Main := {| Temp := 20; Humidity := 60 |};
     Weather := Some [{| Description := "haze" |}];
     Name := "Greater London" |}.

Definition london_reading : WeatherData :=
  {| Main := {| Temp := 21.5; Humidity := 80 |};
     Weather := Some [{| Description := "clear sky" |}];
     Name := "London" |}.

Definition paris_reading : WeatherData :=
  {| Main := {| Temp := (-0.5); Humidity := 93 |};
     Weather := None;
     Name := "Paris" |}.

Definition two_cities : Cache :=
  {| Data := Some (<["Paris" := paris_reading]> {["London" := london_reading]});
     Timestamp := noon |}.

(** A cache whose one key is "Orleans" with its e acute as the single
    byte 233 (Latin-1), which is not UTF-8. *)
Definition latin1_city : string := "Orl" +:+ String (ascii_of_N 233) "ans".

Definition latin1_cache : Cache :=
  {| Data := Some {[latin1_city := london_reading]}; Timestamp := noon |}.

(** A second run three minutes after [first_run], on the disk it left, with
    both providers down. *)
Definition second_run : World :=
  {| flag_city := "London";
     disk := disk_after (Client.main first_run);
     write_fault := None; http_Get := answers down down;
     clock_at_check := noon + 3 * time.Minute;
     clock_at_store := noon + 3 * time.Minute + time.Second;
     owm_first := true |}.

(** No configuration file at all. *)
Definition no_config : World := world ∅ (answer 200 london) down.

(** A cache file that is not JSON; OpenWeatherMap answers. *)
Definition corrupt_cache : World :=
  world (<["cache.json" := Regular Malformed]> (disk_with None))
        (answer 200 london) down.

(** The disk refuses to open the cache file for writing. *)
Definition permission_denied : ioutil.write_failure :=
  {| ioutil.reason := ErrIO "permission denied"; ioutil.stage := ioutil.Opening |}.

(** A cache file that is not JSON; no provider answers. *)
Definition corrupt_cache_offline : World :=
  world (<["cache.json" := Regular Malformed]> (disk_with None)) down down.

(** The disk fills up while the cache file is written. *)
Definition disk_full : ioutil.write_failure :=
  {| ioutil.reason := ErrIO "no space left on device";
     ioutil.stage := ioutil.Writing |}.

Definition read_only : World :=
  {| flag_city := "London"; disk := disk_with None;
     write_fault := Some permission_denied;
     http_Get := answers (answer 200 london) down;
     clock_at_check := noon; clock_at_store := noon + time.Second;
     owm_first := true |}.

(** A cache from two days ago that holds Paris only; London is fetched, and
    a minute later Paris is asked for on the disk that run left. *)
Definition paris_json : value := reading_json 12.5 55 ["overcast"] "Paris".

Definition paris_cached : WeatherData :=
  {| Main := {| Temp := 12.5; Humidity := 55 |};
     Weather := Some [{| Description := "overcast" |}];
     Name := "Paris" |}.

Definition old_paris : World :=
  world (disk_with (Some (cache_json "Paris" paris_json
                            (noon - 2 * 24 * 60 * time.Minute))))
        (answer 200 london) down.

Definition paris_next : World :=
  {| flag_city := "Paris";
     disk := disk_after (Client.main old_paris);
     write_fault := None; http_Get := answers down down;
     clock_at_check := noon + time.Minute;
     clock_at_store := noon + time.Minute + time.Second;
     owm_first := true |}.

End Scenario.

(** * Properties *)

(** ** float64 arithmetic *)

Section Float64.

Local Open Scope float_scope.

Let one : spec_float := S754_finite false 4503599627370496 (-52).

Lemma div_eucl_div_mod (a b : Z) : Z.div_eucl a b = (a / b, a mod b)%Z.
Proof. unfold Z.div, Z.modulo. destruct (Z.div_eucl a b); reflexivity. Qed.

(** A mantissa in canonical position has 53 digits, or fewer at the least
    exponent. *)
Lemma bounded_cases m e :
  bounded prec emax m e = true ->
  (e <= 971 /\
   ((e = -1074 /\ Z.pos (digits2_pos m) <= 53) \/
    (-1074 < e /\ Z.pos (digits2_pos m) = 53)))%Z.
Proof.
  unfold bounded, canonical_mantissa, fexp, SpecFloat.emin, prec, emax.
  intros H. apply andb_true_iff in H as [Hc He].
  apply Z.eqb_eq in Hc. apply Z.leb_le in He. lia.
Qed.

Lemma round_exact s m e :
  bounded prec emax m e = true ->
  binary_round_aux prec emax s (Z.pos m) e loc_Exact = S754_finite s m e.
Proof.
  intros Hb. pose proof (bounded_cases m e Hb) as [He Hc].
  unfold binary_round_aux, shr_fexp.
  change (Zdigits2 (Z.pos m)) with (Z.pos (digits2_pos m)).
  set (d := Z.pos (digits2_pos m)) in *.
  assert (Hf : (fexp prec emax (d + e) - e = 0)%Z)
    by (unfold fexp, SpecFloat.emin, prec, emax; lia).
  rewrite Hf.
  cbn [shr shr_record_of_loc shr_m loc_of_shr_record round_nearest_even].
  change (Zdigits2 (Z.pos m)) with d. rewrite Hf.
  cbn [shr shr_record_of_loc shr_m].
  assert (Hle : (e <=? emax - prec)%Z = true)
    by (apply Z.leb_le; unfold prec, emax; lia).
  now rewrite Hle.
Qed.

(** Division by 1.0 is exact: the quotient of the mantissas is the
    dividend's, shifted by one place when it has all its 53 digits. *)
Lemma SF64div_one s m e :
  bounded prec emax m e = true ->
  SF64div (S754_finite s m e) one = S754_finite s m e.
Proof.
  intros Hb. pose proof (bounded_cases m e Hb) as [He Hc].
  unfold SF64div, SFdiv, SFdiv_core_binary, one.
  change (Zdigits2 (Z.pos m)) with (Z.pos (digits2_pos m)).
  change (Zdigits2 (Z.pos 4503599627370496)) with 53%Z.
  set (d := Z.pos (digits2_pos m)) in *.
  rewrite xorb_false_r.
  change 4503599627370496%Z with (2 ^ 52)%Z.
  destruct Hc as [[-> Hd] | [Hlt Hd]].
  - assert (Hmin : Z.min (fexp prec emax (d + -1074 - (53 + -52)))
                         (-1074 - -52) = (-1074)%Z)
      by (unfold fexp, SpecFloat.emin, prec, emax; lia).
    rewrite Hmin. change (-1074 - -52 - -1074)%Z with 52%Z.
    rewrite Z.shiftl_mul_pow2, div_eucl_div_mod by lia.
    rewrite Z.div_mul, Z.mod_mul by lia.
    change (new_location (2 ^ 52) 0) with loc_Exact.
    now apply round_exact.
  - assert (Hmin : Z.min (fexp prec emax (d + e - (53 + -52))) (e - -52)
                   = (e - 1)%Z)
      by (unfold fexp, SpecFloat.emin, prec, emax; lia).
    rewrite Hmin. replace (e - -52 - (e - 1))%Z with 53%Z by lia.
    rewrite Z.shiftl_mul_pow2, div_eucl_div_mod by lia.
    replace (Z.pos m * 2 ^ 53)%Z with (Z.pos m~0 * 2 ^ 52)%Z
      by (change (2 ^ 53)%Z with (2 * 2 ^ 52)%Z; lia).
    rewrite Z.div_mul, Z.mod_mul by lia.
    change (new_location (2 ^ 52) 0) with loc_Exact.
    unfold binary_round_aux, shr_fexp.
    change (Zdigits2 (Z.pos m~0)) with (Z.pos (Pos.succ (digits2_pos m))).
    rewrite Pos2Z.inj_succ. fold d.
    assert (Hf : (fexp prec emax (Z.succ d + (e - 1)) - (e - 1) = 1)%Z)
      by (unfold fexp, SpecFloat.emin, prec, emax; lia).
    rewrite Hf.
    cbn [shr shr_record_of_loc shr_m shr_1 SpecFloat.iter_pos
         loc_of_shr_record round_nearest_even orb].
    change (Zdigits2 (Z.pos m)) with d.
    replace (e - 1 + 1)%Z with e by lia.
    assert (Hf' : (fexp prec emax (d + e) - e = 0)%Z)
      by (unfold fexp, SpecFloat.emin, prec, emax; lia).
    rewrite Hf'. cbn [shr shr_record_of_loc shr_m].
    assert (Hle : (e <=? emax - prec)%Z = true)
      by (apply Z.leb_le; unfold prec, emax; lia).
    now rewrite Hle.
Qed.

Lemma div_one (x : float) : x / 1 = x.
Proof.
  apply Prim2SF_inj. rewrite div_spec.
  change (Prim2SF 1) with one.
  pose proof (Prim2SF_valid x) as Hv.
  destruct (Prim2SF x) as [[] | [] | | s m e]; try reflexivity.
  now apply SF64div_one.
Qed.

(** Adding the zero the accumulator starts from keeps every number, and
    turns the negative zero into the positive one. *)
Lemma Prim2SF_add_zero_l x :
  Prim2SF (0 + x) =
  match Prim2SF x with S754_zero _ => S754_zero false | y => y end.
Proof.
  rewrite add_spec. change (Prim2SF 0) with (S754_zero false).
  destruct (Prim2SF x) as [[] | [] | |]; reflexivity.
Qed.

Lemma Prim2SF_add_zero_r x :
  Prim2SF (x + 0) =
  match Prim2SF x with S754_zero _ => S754_zero false | y => y end.
Proof.
  rewrite add_spec. change (Prim2SF 0) with (S754_zero false).
  destruct (Prim2SF x) as [[] | [] | |]; reflexivity.
Qed.

Lemma add_zero_comm x : 0 + x = x + 0.
Proof.
  apply Prim2SF_inj. now rewrite Prim2SF_add_zero_l, Prim2SF_add_zero_r.
Qed.

Lemma add_zero_assoc a b : 0 + a + b = a + (b + 0).
Proof.
  apply Prim2SF_inj. rewrite (add_spec (0 + a)), (add_spec a).
  rewrite Prim2SF_add_zero_l, Prim2SF_add_zero_r.
  destruct (Prim2SF a) as [[] | [] | |];
    destruct (Prim2SF b) as [[] | [] | |]; reflexivity.
Qed.

Lemma SFcompare_refl s m e :
  SFcompare (S754_finite s m e) (S754_finite s m e) = Some Eq.
Proof.
  cbn. rewrite Z.compare_refl.
  change (Pos.compare_cont Eq m m) with (Pos.compare m m).
  rewrite Pos.compare_refl. now destruct s.
Qed.

Lemma is_nan_spec x : is_nan x = false -> Prim2SF x <> S754_nan.
Proof.
  unfold is_nan. rewrite FloatAxioms.eqb_spec. intros H Hn. rewrite Hn in H. discriminate.
Qed.

Lemma is_finite_not_nan x : is_finite x = true -> is_nan x = false.
Proof.
  unfold is_finite. intros H. apply negb_true_iff, orb_false_iff in H. tauto.
Qed.

(** In Go's [==], [0 + x] is [x] for every [x] but NaN. *)
Lemma add_zero_eqb x : is_nan x = false -> (0 + x =? x) = true.
Proof.
  intros Hn. apply is_nan_spec in Hn.
  rewrite FloatAxioms.eqb_spec, Prim2SF_add_zero_l. unfold SFeqb.
  destruct (Prim2SF x) as [[] | [] | | s m e]; try reflexivity; try congruence.
  now rewrite SFcompare_refl.
Qed.

End Float64.

(** ** Decoding keeps what the Go types promise *)

Section Decoding.

Lemma fold_left_Err {A B} (step : result A -> B -> result A) :
  (forall e b, step (Err e) b = Err e) ->
  forall l e, fold_left step l (Err e) = Err e.
Proof.
  intros Hstep l. induction l as [|b l IH]; intros e; simpl; [done|].
  now rewrite Hstep.
Qed.

(** A property that every field decoder keeps is kept by the struct. *)
Lemma struct_into_invariant {A} (P : A -> Prop)
    (field : string -> option (A -> json.value -> result A)) :
  (forall key into a j a',
      field key = Some into -> P a -> into a j = Ok a' -> P a') ->
  forall old j new, P old -> json.struct_into field old j = Ok new -> P new.
Proof.
  intros Hfield old j new Hold.
  destruct j as [| | | | |kvs]; simpl; try discriminate.
  - now intros [= <-].
  - revert old Hold. induction kvs as [|kv kvs IH]; simpl; intros old Hold H.
    + now injection H as <-.
    + destruct (field (json.foldName kv.1)) as [into|] eqn:Ef.
      * destruct (into old kv.2) as [a|e] eqn:Ea.
        -- eapply IH; [|exact H]. eauto.
        -- rewrite fold_left_Err in H by done. discriminate.
      * eapply IH; [|exact H]. done.
Qed.

Lemma float64_into_finite old j x :
  json.float64_into old j = Ok x -> is_finite old = true -> is_finite x = true.
Proof.
  intros H Hold. revert H.
  destruct j as [| |[[f|] i]| | |]; simpl; try discriminate.
  - now intros [= <-].
  - destruct (is_finite f) eqn:E; [|discriminate]. now intros [= <-].
Qed.

Lemma MainT_into_finite old j m :
  json.MainT_into old j = Ok m ->
  is_finite (Temp old) = true -> is_finite (Temp m) = true.
Proof.
  intros H Hold. revert H.
  apply (struct_into_invariant (fun m => is_finite (Temp m) = true)); [|done].
  intros key into a j' a' Hkey Ha Hinto.
  repeat case_match; simplify_eq; inv_bind Hinto; simpl.
  - eauto using float64_into_finite.
  - done.
Qed.

Lemma WeatherData_into_finite old j reading :
  json.WeatherData_into old j = Ok reading ->
  is_finite (temperatureCelsius old) = true ->
  is_finite (temperatureCelsius reading) = true.
Proof.
  intros H Hold. unfold json.WeatherData_into in H. inv_bind H.
  revert E.
  apply (struct_into_invariant
           (fun p => is_finite (temperatureCelsius p.1) = true)); [|done].
  intros key into p j' p' Hkey Ha Hinto.
  repeat case_match; simplify_eq; inv_bind Hinto;
    unfold temperatureCelsius in *; simpl; eauto using MainT_into_finite.
Qed.

(** No provider ever hands over a NaN or an infinity. *)
Lemma fetchWeatherData_finite get url reading :
  Client.fetchWeatherData get url = Ok reading ->
  is_finite (temperatureCelsius reading) = true.
Proof.
  unfold Client.fetchWeatherData. intros H.
  destruct (get url) as [resp|]; [|discriminate].
  destruct (Body resp) as [[|v]|]; try discriminate. simpl in H.
  destruct (json.WeatherData_into zero_WeatherData v) as [r|] eqn:E;
    simplify_eq.
  eapply WeatherData_into_finite; [exact E|]. reflexivity.
Qed.

End Decoding.

(** ** The shape of a run *)

Section Shape.

Import Client.

Lemma main_no_city w :
  flag_city w = "" ->
  main w = {| stdout := [CityRequired]; exit := Exit 1; requests := [];
              cache_var := None; disk_after := disk w |}.
Proof. intros H. unfold main. now rewrite H. Qed.

Lemma main_no_config w err :
  flag_city w <> "" ->
  loadConfig (disk w) "config.json" = Err err ->
  main w = {| stdout := [ErrorLoadingConfig err]; exit := Exit 1;
              requests := []; cache_var := None; disk_after := disk w |}.
Proof.
  intros Hc H. unfold main. rewrite H.
  destruct (String.eqb_spec (flag_city w) ""); [done|reflexivity].
Qed.

Lemma main_run w config :
  flag_city w <> "" ->
  loadConfig (disk w) "config.json" = Ok config ->
  main w = match hit w with
           | Some weatherData =>
               report_cached (preamble w) (loaded w) (disk w) weatherData
           | None => fetch_and_store w config (preamble w) (loaded w)
           end.
Proof.
  intros Hc H. unfold main, hit, preamble, loaded. rewrite H.
  destruct (String.eqb_spec (flag_city w) ""); [done|].
  destruct (loadCache (disk w) "cache.json") as [[c|] err]; simpl; [|done].
  destruct (fresh (clock_at_check w) c); [|done].
  now destruct (map_index (Data c) (flag_city w)).
Qed.

Lemma report_cached_requests out cache fs weatherData :
  requests (report_cached out cache fs weatherData) = [].
Proof.
  unfold report_cached. now destruct (slice_list (Weather weatherData)).
Qed.

Lemma fetch_and_store_requests w config out cache :
  requests (fetch_and_store w config out cache) =
  [OpenWeatherMap_url (flag_city w) (OpenWeatherMapAPIKey config);
   WeatherAPI_url (flag_city w) (WeatherAPIKey config)].
Proof.
  unfold fetch_and_store.
  destruct (weatherDataList w config); [done|].
  destruct (Data _); [|done].
  now destruct (saveCache _ _ _ _) as [[e|] fs].
Qed.

(** The providers are called exactly on the runs that get past the flag
    and the configuration and find no fresh entry for the city. *)
Lemma fetches_inv w :
  fetches (main w) ->
  exists config,
    flag_city w <> "" /\
    loadConfig (disk w) "config.json" = Ok config /\
    hit w = None /\
    main w = fetch_and_store w config (preamble w) (loaded w).
Proof.
  unfold fetches. intros Hreq.
  destruct (String.eqb_spec (flag_city w) "") as [Hc|Hc].
  { now rewrite main_no_city in Hreq. }
  destruct (loadConfig (disk w) "config.json") as [config|err] eqn:Hcfg.
  2:{ now rewrite (main_no_config w err) in Hreq. }
  exists config. rewrite (main_run w config) in * by done.
  destruct (hit w); [|done].
  now rewrite report_cached_requests in Hreq.
Qed.

Lemma loadCache_Some fs filename c :
  (loadCache fs filename).1 = Some c -> (loadCache fs filename).2 = None.
Proof.
  unfold loadCache.
  destruct (ioutil.ReadFile fs filename) as [data|err].
  - now destruct (json.Unmarshal json.Cache_into zero_Cache data).
  - now destruct (os_IsNotExist err).
Qed.

Lemma appended_length r : (length (appended r) <= 1)%nat.
Proof. destruct r; simpl; lia. Qed.

Lemma collect_length first_owm owm wapi :
  (length (collect first_owm owm wapi) <= 2)%nat.
Proof.
  unfold collect. pose proof (appended_length owm).
  pose proof (appended_length wapi).
  destruct first_owm; rewrite length_app; lia.
Qed.

Lemma elem_of_collect reading first_owm owm wapi :
  reading ∈ collect first_owm owm wapi ->
  owm = Ok reading \/ wapi = Ok reading.
Proof.
  unfold collect, appended.
  destruct first_owm, owm as [a|], wapi as [b|]; simpl; intros H;
    repeat (apply elem_of_cons in H as [->|H]);
    try (now apply elem_of_nil in H); auto.
Qed.

(** Every collected reading was decoded from a provider's answer. *)
Lemma weatherDataList_finite w config reading :
  reading ∈ weatherDataList w config ->
  is_finite (temperatureCelsius reading) = true.
Proof.
  intros H. apply elem_of_collect in H as [H|H];
    eapply fetchWeatherData_finite; exact H.
Qed.

(** With at most two readings the loop of line 100, which adds from the
    left, computes the mean of the spec. *)
Lemma avgTemp_mean weatherDataList :
  (length weatherDataList <= 2)%nat ->
  avgTemp weatherDataList =
  arithmetic_mean (map temperatureCelsius weatherDataList).
Proof.
  unfold avgTemp, arithmetic_mean, totalTemp, float64_of_len.
  rewrite length_map. intros Hlen. f_equal.
  destruct weatherDataList as [|a [|b [|c l]]]; simpl in *; try lia.
  - reflexivity.
  - apply add_zero_comm.
  - apply add_zero_assoc.
Qed.

End Shape.

(** ** The cache hit (lines 55 to 63) *)

Section Hit.

Import Client.

(** The ten minutes are counted in nanoseconds; pinning the difference to
    [int64] does not move the comparison. *)
Lemma fresh_iff now cache :
  fresh now cache = true <-> now - Timestamp cache < 10 * time.Minute.
Proof.
  unfold fresh, time.Minutes_lt, time.Since, time.Sub.
  rewrite Z.ltb_lt.
  unfold time.minDuration, time.maxDuration, time.Minute, time.Second,
    time.Nanosecond.
  lia.
Qed.

(** Around the ten minutes and at the ends of [int64], [Minutes] read as a
    [float64] gives the same answer. *)
Lemma Minutes_lt_at_the_edges :
  Forall (fun d => (time.Minutes d <? 10)%float = time.Minutes_lt d 10)
         [time.minDuration; -1; 0; 1; 9 * time.Minute;
          10 * time.Minute - 1; 10 * time.Minute; 10 * time.Minute + 1;
          11 * time.Minute; time.maxDuration].
Proof. repeat (constructor; [vm_compute; reflexivity|]). constructor. Qed.

Lemma hit_Some w reading :
  hit w = Some reading <->
  exists c, loaded w = Some c /\ fresh (clock_at_check w) c = true /\
            map_index (Data c) (flag_city w) = Some reading.
Proof.
  unfold hit. split.
  - destruct (loaded w) as [c|]; [|done].
    destruct (fresh (clock_at_check w) c) eqn:Hf; [|done]. eauto.
  - intros (c & -> & -> & H). exact H.
Qed.

End Hit.

(** C1, at a cache file the program accepts: [cache.json] was written five
    minutes before the run and holds an entry for London whose weather array
    is empty.  The cache loads, is fresh and has the city, and no provider is
    called; but the run does not print the cached reading and end well: after
    the humidity it stops on the index of line 60.  The program writes such
    an entry itself when the reading it stores came from WeatherAPI, whose
    answer has no weather array: a second run one minute later stops the same
    way. *)
Theorem cache_hit_stops_on_empty_weather :
  hit Scenario.cached_no_weather =
    Some {| Main := {| Temp := 21.5; Humidity := 80 |};
            Weather := Some []; Name := "London" |} /\
  requests (Client.main Scenario.cached_no_weather) = [] /\
  stdout (Client.main Scenario.cached_no_weather) =
    [WeatherInFromCache "London"; Temperature 21.5; HumidityPercent 80] /\
  exit (Client.main Scenario.cached_no_weather) = Panicked IndexOutOfRange /\
  exit (Client.main Scenario.weatherapi_only) = Exit 0 /\
  hit Scenario.a_minute_later = Some zero_WeatherData /\
  requests (Client.main Scenario.a_minute_later) = [] /\
  exit (Client.main Scenario.a_minute_later) = Panicked IndexOutOfRange.
Proof. vm_compute. repeat split; reflexivity. Qed.

(** ** The fetch (lines 65 to 117) *)

Section Fetch.

Import Client.

Lemma appended_nil r : appended r = [] <-> is_ok r = false.
Proof. destruct r; simpl; split; congruence. Qed.

Lemma collect_nil first_owm owm wapi :
  collect first_owm owm wapi = [] <-> is_ok owm = false /\ is_ok wapi = false.
Proof.
  unfold collect. rewrite <- !appended_nil.
  destruct first_owm, (appended owm), (appended wapi); simpl; split;
    (intros [? ?] || intros ?); try done.
Qed.

(** What the run prints once a reading is there, whatever happens to the
    cache afterwards. *)
Lemma fetch_and_store_stdout w config out cache first rest :
  weatherDataList w config = first :: rest ->
  exists tail,
    stdout (fetch_and_store w config out cache) =
      out ++ [AverageTemperatureIn (Name first);
              Temperature (avgTemp (first :: rest))] ++ tail /\
    (tail = [] \/ exists err, tail = [ErrorSavingCache err]).
Proof.
  intros Hl. unfold fetch_and_store. rewrite Hl.
  destruct (Data _) as [data|].
  - destruct (saveCache _ _ _ _) as [[err|] fs]; simpl.
    + exists [ErrorSavingCache err]. rewrite <- app_assoc. eauto.
    + exists []. eauto.
  - exists []. simpl. eauto.
Qed.

Lemma fetch_and_store_nothing w config out cache :
  weatherDataList w config = [] ->
  fetch_and_store w config out cache =
  {| stdout := out ++ [FailedToRetrieve]; exit := Exit 1;
     requests := [OpenWeatherMap_url (flag_city w) (OpenWeatherMapAPIKey config);
                  WeatherAPI_url (flag_city w) (WeatherAPIKey config)];
     cache_var := cache; disk_after := disk w |}.
Proof. intros Hl. unfold fetch_and_store. now rewrite Hl. Qed.

End Fetch.

(** C2: when the run goes to the providers and every call fails, the last
    line printed is the failure message, the exit code is 1, the variable
    [cache] still holds what was loaded and the disk is as it was. *)
Theorem both_providers_fail w :
  fetches (Client.main w) ->
  Forall (fun url => is_ok (Client.fetchWeatherData (http_Get w) url) = false)
         (requests (Client.main w)) ->
  last (stdout (Client.main w)) = Some FailedToRetrieve /\
  exit (Client.main w) = Exit 1 /\
  cache_var (Client.main w) = loaded w /\
  disk_after (Client.main w) = disk w.
Proof.
  intros Hf Hall. destruct (fetches_inv w Hf) as (config & _ & _ & _ & Hmain).
  rewrite Hmain in *. rewrite fetch_and_store_requests in Hall.
  apply Forall_cons in Hall as [Howm Hall].
  apply Forall_cons in Hall as [Hwapi _].
  rewrite fetch_and_store_nothing.
  - simpl. now rewrite last_snoc.
  - unfold Client.weatherDataList. now apply collect_nil.
Qed.

Lemma both_providers_fail_witness :
  fetches (Client.main Scenario.offline) /\
  last (stdout (Client.main Scenario.offline)) = Some FailedToRetrieve /\
  exit (Client.main Scenario.offline) = Exit 1 /\
  cache_var (Client.main Scenario.offline) = loaded Scenario.offline /\
  disk_after (Client.main Scenario.offline) = disk Scenario.offline.
Proof.
  split; [vm_compute; discriminate|].
  apply both_providers_fail; [vm_compute; discriminate|].
  replace (requests (Client.main Scenario.offline))
    with [Client.OpenWeatherMap_url "London" "owm-key";
          Client.WeatherAPI_url "London" "wapi-key"]
    by (vm_compute; reflexivity).
  repeat (constructor; [vm_compute; reflexivity|]). constructor.
Defined.

(** C3: once readings are collected, the temperature the run prints is the
    arithmetic mean of their temperatures in [float64] arithmetic.  With one
    reading it equals (Go's [==]) that reading's temperature; with 10.0 and
    20.0 it is 15.0. *)
Theorem reported_temperature_is_mean w config first rest :
  Client.loadConfig (disk w) "config.json" = Ok config ->
  fetches (Client.main w) ->
  Client.weatherDataList w config = first :: rest ->
  let temps := map temperatureCelsius (first :: rest) in
  Temperature (arithmetic_mean temps) ∈ stdout (Client.main w) /\
  (rest = [] ->
   (arithmetic_mean temps =? temperatureCelsius first)%float = true) /\
  (temps = [10; 20]%float -> arithmetic_mean temps = 15%float).
Proof.
  intros Hcfg Hf Hl temps.
  destruct (fetches_inv w Hf) as (config' & _ & Hcfg' & _ & Hmain).
  assert (config' = config) as -> by congruence.
  split; [|split].
  - rewrite Hmain.
    destruct (fetch_and_store_stdout w config (preamble w) (loaded w)
                first rest Hl) as (tail & -> & _).
    rewrite avgTemp_mean by (rewrite <- Hl; apply collect_length).
    rewrite !elem_of_app, !elem_of_cons. auto.
  - intros ->. subst temps. unfold arithmetic_mean. simpl.
    change (float64_of_len [temperatureCelsius first]) with 1%float.
    rewrite div_one, <- add_zero_comm.
    apply add_zero_eqb, is_finite_not_nan.
    apply (weatherDataList_finite w config). rewrite Hl. apply list_elem_of_here.
  - intros ->. reflexivity.
Qed.

Lemma reported_temperature_is_mean_witness :
  fetches (Client.main Scenario.both_answer) /\
  Temperature 15 ∈ stdout (Client.main Scenario.both_answer).
Proof.
  assert (Hf : fetches (Client.main Scenario.both_answer))
    by (vm_compute; discriminate).
  assert (Hc : Client.loadConfig (disk Scenario.both_answer) "config.json"
               = Ok Scenario.keys) by (vm_compute; reflexivity).
  assert (Hl : Client.weatherDataList Scenario.both_answer Scenario.keys
               = [Scenario.mist; Scenario.haze]) by (vm_compute; reflexivity).
  split; [exact Hf|].
  destruct (reported_temperature_is_mean _ _ _ _ Hc Hf Hl) as (Hmean & _ & H15).
  rewrite (H15 eq_refl) in Hmean. exact Hmean.
Defined.

(** C4, as stated, at OpenWeatherMap's answer for a city it does not know:
    the status is 404, the body is a JSON object, and the call returns no
    error; the decoded (all zero) reading is collected and reported. *)
Lemma not_found_answer_is_collected :
  StatusCode <$> (match http_Get Scenario.unknown_city
                          (Client.OpenWeatherMap_url "London" "owm-key") with
                  | Ok resp => Some resp
                  | Err _ => None
                  end) = Some 404 /\
  Client.fetchWeatherData (http_Get Scenario.unknown_city)
    (Client.OpenWeatherMap_url "London" "owm-key") = Ok zero_WeatherData /\
  Client.weatherDataList Scenario.unknown_city Scenario.keys
    = [zero_WeatherData] /\
  stdout (Client.main Scenario.unknown_city) =
    [AverageTemperatureIn ""; Temperature 0] /\
  exit (Client.main Scenario.unknown_city) = Exit 0.
Proof. vm_compute. repeat split; reflexivity. Qed.

(** C4, amended: a provider's reading is left out exactly when [http.Get]
    returns an error, or reading the body does, or the body does not decode
    into a [WeatherData]; the status of the response plays no part.  A call
    that fails takes nothing from the other one: its reading is collected
    alone, whichever goroutine comes first. *)
Theorem dropped_iff_call_errors get url :
  (Client.appended (Client.fetchWeatherData get url) = [] <->
   (exists err, get url = Err err) \/
   (exists resp err, get url = Ok resp /\ Body resp = Err err) \/
   (exists resp body err,
       get url = Ok resp /\ Body resp = Ok body /\
       json.Unmarshal json.WeatherData_into zero_WeatherData body = Err err)) /\
  (forall resp resp' body,
      get url = Ok resp -> Body resp = Ok body -> Body resp' = Ok body ->
      Client.fetchWeatherData (fun _ => Ok resp') url =
      Client.fetchWeatherData get url) /\
  (forall first_owm err reading,
      Client.collect first_owm (Err err) (Ok reading) = [reading] /\
      Client.collect first_owm (Ok reading) (Err err) = [reading]).
Proof.
  split; [|split].
  - unfold Client.fetchWeatherData. split.
    + destruct (get url) as [resp|err]; [|eauto].
      destruct (Body resp) as [body|err] eqn:Hb; [|eauto 10].
      destruct (json.Unmarshal _ _ body) as [r|err] eqn:Hu; [done|].
      eauto 10.
    + intros [(err & ->) | [(resp & err & -> & ->) |
                            (resp & body & err & -> & -> & ->)]]; done.
  - intros resp resp' body Hget Hb Hb'. unfold Client.fetchWeatherData.
    now rewrite Hget, Hb, Hb'.
  - intros [] err reading; done.
Qed.

(** C5, as stated, at a first run where OpenWeatherMap alone answers: the
    first reading has humidity 80 and the description "clear sky", and the
    report is two lines, the location and the temperature. *)
Lemma humidity_and_description_not_reported :
  Client.weatherDataList Scenario.first_run Scenario.keys
    = [Scenario.london_reading] /\
  stdout (Client.main Scenario.first_run)
    = [AverageTemperatureIn "London"; Temperature 21.5] /\
  (HumidityPercent 80 ∉ stdout (Client.main Scenario.first_run)) /\
  (DescriptionOf "clear sky" ∉ stdout (Client.main Scenario.first_run)).
Proof.
  assert (Hout : stdout (Client.main Scenario.first_run)
                 = [AverageTemperatureIn "London"; Temperature 21.5])
    by (vm_compute; reflexivity).
  rewrite Hout. repeat split; try (vm_compute; reflexivity);
    intros H; repeat (apply elem_of_cons in H as [H|H]; [discriminate|]);
    now apply elem_of_nil in H.
Qed.

(** C5, amended: once readings are collected the report is two lines, the
    first reading's location and the averaged temperature; every other line
    of the run tells that the cache could not be loaded or saved.  Humidity
    and description are not printed on this path. *)
Theorem average_report_names_first_reading w config first rest :
  Client.loadConfig (disk w) "config.json" = Ok config ->
  fetches (Client.main w) ->
  Client.weatherDataList w config = first :: rest ->
  exists before after,
    stdout (Client.main w) =
      before ++ [AverageTemperatureIn (Name first);
                 Temperature (Client.avgTemp (first :: rest))] ++ after /\
    Forall diagnostic before /\ Forall diagnostic after.
Proof.
  intros Hcfg Hf Hl.
  destruct (fetches_inv w Hf) as (config' & _ & Hcfg' & _ & Hmain).
  assert (config' = config) as -> by congruence.
  destruct (fetch_and_store_stdout w config (preamble w) (loaded w)
              first rest Hl) as (tail & Hout & Htail).
  exists (preamble w), tail. rewrite Hmain. split; [exact Hout|]. split.
  - unfold preamble.
    destruct (snd (Client.loadCache (disk w) "cache.json")); repeat constructor.
  - destruct Htail as [-> | [err ->]]; repeat constructor.
Qed.

Lemma average_report_names_first_reading_witness :
  fetches (Client.main Scenario.first_run) /\
  exists before after,
    stdout (Client.main Scenario.first_run) =
      before ++ [AverageTemperatureIn "London";
                 Temperature (Client.avgTemp [Scenario.london_reading])]
             ++ after /\
    Forall diagnostic before /\ Forall diagnostic after.
Proof.
  assert (Hf : fetches (Client.main Scenario.first_run))
    by (vm_compute; discriminate).
  split; [exact Hf|].
  apply (average_report_names_first_reading Scenario.first_run Scenario.keys
           Scenario.london_reading []); [|exact Hf|]; vm_compute; reflexivity.
Defined.

(** ** Loading (lines 136 to 152) *)

(** C6: where no file exists [loadCache] returns no error and no cache, so
    that no city can be found in what it returns; and when it returns an
    error, the file exists and either cannot be read or holds bytes that do
    not decode into a [Cache]. *)
Theorem loadCache_missing_or_failing fs filename :
  (fs !! filename = None ->
   Client.loadCache fs filename = (None, None) /\
   forall city,
     (Client.loadCache fs filename).1 ≫= (fun c => map_index (Data c) city)
     = None) /\
  (forall err,
      (Client.loadCache fs filename).2 = Some err ->
      (exists msg, fs !! filename = Some (Unreadable msg)) \/
      (exists data,
          fs !! filename = Some (Regular data) /\
          json.Unmarshal json.Cache_into zero_Cache data = Err err)).
Proof.
  unfold Client.loadCache, ioutil.ReadFile. split.
  - intros ->. simpl. done.
  - intros err. destruct (fs !! filename) as [[msg|data]|]; simpl.
    + eauto.
    + destruct (json.Unmarshal _ _ data) as [c|e] eqn:Hu; simpl; [done|].
      intros [= ->]. eauto.
    + done.
Qed.

Lemma loadCache_missing_or_failing_witness :
  Client.loadCache (disk Scenario.offline) "cache.json" = (None, None) /\
  forall city,
    (Client.loadCache (disk Scenario.offline) "cache.json").1
      ≫= (fun c => map_index (Data c) city) = None.
Proof.
  apply (proj1 (loadCache_missing_or_failing (disk Scenario.offline) "cache.json")).
  vm_compute. reflexivity.
Defined.

(** ** The update of the cache (lines 109 to 117) *)

Section Update.

Import Client.

(** A run that went to the providers and ended with code 0 had a reading
    and a map to put it in, and left [cache] as line 112 and 113 make it. *)
Lemma successful_fetch_inv w :
  successful_fetch (main w) ->
  exists config first rest data,
    loadConfig (disk w) "config.json" = Ok config /\
    hit w = None /\
    weatherDataList w config = first :: rest /\
    match loaded w with
    | Some c => Data c = Some data
    | None => data = ∅
    end /\
    cache_var (main w) =
      Some {| Data := Some (<[flag_city w := first]> data);
              Timestamp := clock_at_store w |} /\
    disk_after (main w) =
      (saveCache (write_fault w) (disk w) "cache.json"
         {| Data := Some (<[flag_city w := first]> data);
            Timestamp := clock_at_store w |}).2.
Proof.
  intros [Hf Hexit].
  destruct (fetches_inv w Hf) as (config & _ & Hcfg & Hhit & Hmain).
  rewrite Hmain in *. clear Hmain. unfold fetch_and_store in *.
  destruct (weatherDataList w config) as [|first rest] eqn:Hl; [done|].
  exists config, first, rest.
  destruct (loaded w) as [c|]; simpl in *.
  - destruct (Data c) as [data|] eqn:Hd; [|done].
    exists data. destruct (saveCache _ _ _ _) as [[err|] fs]; simpl; auto 10.
  - exists ∅. destruct (saveCache _ _ _ _) as [[err|] fs]; simpl; auto 10.
Qed.

(** The run once a reading is there and the cache has a map. *)
Lemma fetch_and_store_saves w config out cache first rest data :
  weatherDataList w config = first :: rest ->
  match cache with
  | Some c => Data c = Some data
  | None => data = ∅
  end ->
  let stored := {| Data := Some (<[flag_city w := first]> data);
                   Timestamp := clock_at_store w |} in
  let saved := saveCache (write_fault w) (disk w) "cache.json" stored in
  fetch_and_store w config out cache =
  {| stdout := out ++ [AverageTemperatureIn (Name first);
                       Temperature (avgTemp (first :: rest))]
                   ++ match saved.1 with
                      | Some err => [ErrorSavingCache err]
                      | None => []
                      end;
     exit := Exit 0;
     requests := [OpenWeatherMap_url (flag_city w) (OpenWeatherMapAPIKey config);
                  WeatherAPI_url (flag_city w) (WeatherAPIKey config)];
     cache_var := Some stored;
     disk_after := saved.2 |}.
Proof.
  intros Hl Hdata. unfold fetch_and_store. rewrite Hl.
  destruct cache as [c|]; simpl in *.
  - rewrite Hdata. destruct (saveCache _ _ _ _) as [[err|] fs]; simpl.
    + now rewrite <- app_assoc.
    + done.
  - subst data. destruct (saveCache _ _ _ _) as [[err|] fs]; simpl.
    + now rewrite <- app_assoc.
    + done.
Qed.

(** The run once a reading is there and the loaded cache has no map: the
    assignment of line 112 panics. *)
Lemma fetch_and_store_nil_map w config out c first rest :
  weatherDataList w config = first :: rest ->
  Data c = None ->
  fetch_and_store w config out (Some c) =
  {| stdout := out ++ [AverageTemperatureIn (Name first);
                       Temperature (avgTemp (first :: rest))];
     exit := Panicked NilMapAssignment;
     requests := [OpenWeatherMap_url (flag_city w) (OpenWeatherMapAPIKey config);
                  WeatherAPI_url (flag_city w) (WeatherAPIKey config)];
     cache_var := Some c;
     disk_after := disk w |}.
Proof.
  intros Hl Hnil. unfold fetch_and_store. rewrite Hl. simpl. now rewrite Hnil.
Qed.

Lemma collects_main w first rest :
  collects w first rest ->
  exists config,
    weatherDataList w config = first :: rest /\
    main w = fetch_and_store w config (preamble w) (loaded w).
Proof.
  intros (config & Hcity & Hcfg & Hhit & Hl). exists config.
  split; [exact Hl|]. rewrite (main_run w config) by done. now rewrite Hhit.
Qed.

(** A run that collects a reading and has a map to put it in. *)
Lemma collects_stores w first rest :
  collects w first rest ->
  (forall c0, loaded w = Some c0 -> Data c0 <> None) ->
  exists data,
    match loaded w with
    | Some c => Data c = Some data
    | None => data = ∅
    end /\
    exit (main w) = Exit 0 /\
    cache_var (main w) =
      Some {| Data := Some (<[flag_city w := first]> data);
              Timestamp := clock_at_store w |} /\
    disk_after (main w) =
      (saveCache (write_fault w) (disk w) "cache.json"
         {| Data := Some (<[flag_city w := first]> data);
            Timestamp := clock_at_store w |}).2.
Proof.
  intros Hc Hmap. destruct (collects_main w first rest Hc) as (config & Hl & ->).
  assert (Hdata : exists data, match loaded w with
                               | Some c => Data c = Some data
                               | None => data = ∅
                               end).
  { destruct (loaded w) as [c0|] eqn:Hload; [|eauto].
    destruct (Data c0) as [data|] eqn:Hd; [eauto|].
    now destruct (Hmap c0 eq_refl). }
  destruct Hdata as [data Hdata]. exists data. split; [exact Hdata|].
  now rewrite (fetch_and_store_saves w config _ _ first rest data Hl Hdata).
Qed.

(** A run that collects a reading and finds no map in the loaded cache. *)
Lemma collects_nil_map w first rest c0 :
  collects w first rest ->
  loaded w = Some c0 ->
  Data c0 = None ->
  stdout (main w) = [AverageTemperatureIn (Name first);
                     Temperature (avgTemp (first :: rest))] /\
  exit (main w) = Panicked NilMapAssignment /\
  cache_var (main w) = Some c0 /\
  disk_after (main w) = disk w.
Proof.
  intros Hc Hload Hnil.
  destruct (collects_main w first rest Hc) as (config & Hl & ->).
  rewrite Hload, (fetch_and_store_nil_map w config _ c0 first rest Hl Hnil).
  unfold preamble. unfold loaded in Hload.
  now rewrite (loadCache_Some _ _ _ Hload).
Qed.

(** Any run that collects no reading leaves the disk alone, and [cache] as
    it was loaded, when it was loaded at all. *)
Lemma not_collects_keeps w :
  ~ (exists first rest, collects w first rest) ->
  disk_after (main w) = disk w /\
  (cache_var (main w) = None \/ cache_var (main w) = loaded w).
Proof.
  intros Hnot.
  destruct (String.eqb_spec (flag_city w) "") as [Hc|Hc].
  { rewrite main_no_city by done. auto. }
  destruct (loadConfig (disk w) "config.json") as [config|err] eqn:Hcfg.
  2:{ rewrite (main_no_config w err) by done. auto. }
  rewrite (main_run w config) by done.
  destruct (hit w) as [reading|] eqn:Hhit.
  { unfold report_cached.
    destruct (slice_list (Weather reading)); simpl; auto. }
  destruct (weatherDataList w config) as [|first rest] eqn:Hl.
  { rewrite fetch_and_store_nothing by done. simpl. auto. }
  exfalso. apply Hnot. exists first, rest, config. auto.
Qed.

(** What a cache hit prints, line by line. *)
Lemma main_hit w config reading :
  flag_city w <> "" ->
  loadConfig (disk w) "config.json" = Ok config ->
  hit w = Some reading ->
  requests (main w) = [] /\
  stdout (main w) =
    preamble w ++ [WeatherInFromCache (Name reading);
                   Temperature (temperatureCelsius reading);
                   HumidityPercent (Humidity (Main reading))]
               ++ description_line reading /\
  exit (main w) = match slice_list (Weather reading) with
                  | _ :: _ => Exit 0
                  | [] => Panicked IndexOutOfRange
                  end /\
  cache_var (main w) = loaded w /\
  disk_after (main w) = disk w.
Proof.
  intros Hc Hcfg Hhit. rewrite (main_run w config) by done. rewrite Hhit.
  unfold report_cached, description_line.
  destruct (slice_list (Weather reading)); simpl.
  - done.
  - now rewrite <- app_assoc.
Qed.

End Update.

(** C8, at a cache file the program accepts: [cache.json] holds the empty
    object, which loads without error into a cache whose map is nil.  The run
    goes to the providers, collects a reading and prints the average; then
    the assignment of line 112 panics: no entry is inserted, the timestamp is
    not set and nothing is saved.  On every run that collects a reading: with
    a nil map in the loaded cache it ends so; otherwise it ends with code 0,
    with the first reading under the queried city, the timestamp at the
    clock's reading of line 113 and every other city as it was loaded.  Every
    run that collects no reading leaves the cache as loaded and the disk as it
    was. *)
Theorem cache_update_stops_on_nil_map :
  (loaded Scenario.cache_without_data = Some zero_Cache /\
   preamble Scenario.cache_without_data = [] /\
   collects Scenario.cache_without_data Scenario.london_reading [] /\
   stdout (Client.main Scenario.cache_without_data)
     = [AverageTemperatureIn "London"; Temperature 21.5] /\
   exit (Client.main Scenario.cache_without_data)
     = Panicked NilMapAssignment /\
   cache_var (Client.main Scenario.cache_without_data) = Some zero_Cache /\
   disk_after (Client.main Scenario.cache_without_data)
     = disk Scenario.cache_without_data) /\
  (forall w first rest,
      collects w first rest ->
      (forall c0,
          loaded w = Some c0 -> Data c0 = None ->
          exit (Client.main w) = Panicked NilMapAssignment /\
          cache_var (Client.main w) = loaded w /\
          disk_after (Client.main w) = disk w) /\
      ((forall c0, loaded w = Some c0 -> Data c0 <> None) ->
       exit (Client.main w) = Exit 0 /\
       exists c,
         cache_var (Client.main w) = Some c /\
         map_index (Data c) (flag_city w) = Some first /\
         Timestamp c = clock_at_store w /\
         forall other,
           other <> flag_city w ->
           map_index (Data c) other
           = loaded w ≫= (fun c0 => map_index (Data c0) other))) /\
  (forall w,
      ~ (exists first rest, collects w first rest) ->
      disk_after (Client.main w) = disk w /\
      (cache_var (Client.main w) = None \/
       cache_var (Client.main w) = loaded w)).
Proof.
  split; [|split].
  - assert (Hc : collects Scenario.cache_without_data Scenario.london_reading []).
    { exists Scenario.keys.
      repeat split; vm_compute; (reflexivity || discriminate). }
    repeat split; try exact Hc; vm_compute; reflexivity.
  - intros w first rest Hc. split.
    + intros c0 Hload Hnil.
      destruct (collects_nil_map w first rest c0 Hc Hload Hnil)
        as (_ & Hexit & Hvar & Hdisk).
      now rewrite Hload.
    + intros Hmap.
      destruct (collects_stores w first rest Hc Hmap)
        as (data & Hdata & Hexit & Hvar & _).
      split; [exact Hexit|]. eexists. split; [exact Hvar|].
      simpl. split; [apply lookup_insert_eq|]. split; [reflexivity|].
      intros other Hother. rewrite lookup_insert_ne by done.
      destruct (loaded w) as [c0|]; simpl.
      * now rewrite Hdata.
      * subst data. apply lookup_empty.
  - apply not_collects_keeps.
Qed.

(** At a cache from two days ago that holds Paris, a run for London puts
    London in, sets the timestamp and keeps Paris as it was. *)
Lemma cache_update_stops_on_nil_map_witness :
  exit (Client.main Scenario.old_paris) = Exit 0 /\
  exists c,
    cache_var (Client.main Scenario.old_paris) = Some c /\
    map_index (Data c) "London" = Some Scenario.london_reading /\
    Timestamp c = Scenario.noon + time.Second /\
    map_index (Data c) "Paris" = Some Scenario.paris_cached.
Proof.
  assert (Hc : collects Scenario.old_paris Scenario.london_reading []).
  { exists Scenario.keys.
    repeat split; vm_compute; (reflexivity || discriminate). }
  assert (Hload : loaded Scenario.old_paris
                  = Some {| Data := Some {["Paris" := Scenario.paris_cached]};
                            Timestamp :=
                              Scenario.noon - 2 * 24 * 60 * time.Minute |})
    by (vm_compute; reflexivity).
  destruct (proj1 (proj2 cache_update_stops_on_nil_map)
              Scenario.old_paris Scenario.london_reading [] Hc) as [_ Hstore].
  destruct Hstore as (Hexit & c & Hvar & Hcity & Hts & Hframe).
  { intros c0 H. rewrite Hload in H. injection H as <-. discriminate. }
  split; [exact Hexit|]. exists c.
  split; [exact Hvar|]. split; [exact Hcity|]. split; [exact Hts|].
  rewrite (Hframe "Paris") by discriminate. rewrite Hload. simpl.
  apply lookup_singleton_eq.
Defined.

(** C9, at answers the providers really give: only WeatherAPI answers, and
    no key of its body names a field of [WeatherData], so the reading
    collected has no weather list.  The run stores it under the city as it is
    and ends with code 0.  A run for the same city a minute later, on the disk
    the first one left, loads that cache, calls no provider, prints the stored
    name, temperature and humidity, and then stops on the index of line 60: no
    description is reported.  On every run that collects a reading and has a
    map to put it in, the entry left under the city is the first reading as it
    was decoded, and the file written is the encoding of that cache; a later
    hit on it prints that reading's own temperature and humidity, and then its
    first description and ends with code 0 when it has one, and panics when it
    has none.  With a nil map in the loaded cache nothing is stored at all. *)
Theorem stored_reading_hit_stops_without_description :
  (collects Scenario.weatherapi_only zero_WeatherData [] /\
   exit (Client.main Scenario.weatherapi_only) = Exit 0 /\
   cache_var (Client.main Scenario.weatherapi_only)
     = Some {| Data := Some {["London" := zero_WeatherData]};
               Timestamp := Scenario.noon + time.Second |} /\
   Client.loadCache (disk Scenario.a_minute_later) "cache.json"
     = (cache_var (Client.main Scenario.weatherapi_only), None) /\
   requests (Client.main Scenario.a_minute_later) = [] /\
   stdout (Client.main Scenario.a_minute_later)
     = [WeatherInFromCache ""; Temperature 0; HumidityPercent 0] /\
   exit (Client.main Scenario.a_minute_later) = Panicked IndexOutOfRange) /\
  (forall w first rest,
      collects w first rest ->
      (forall c0, loaded w = Some c0 -> Data c0 <> None) ->
      exit (Client.main w) = Exit 0 /\
      (exists c,
          cache_var (Client.main w) = Some c /\
          map_index (Data c) (flag_city w) = Some first /\
          forall doc,
            write_fault w = None ->
            json.MarshalIndent json.of_Cache c = Ok doc ->
            disk_after (Client.main w)
            = <["cache.json" := Regular doc]> (disk w)) /\
      forall w',
        flag_city w' = flag_city w ->
        is_ok (Client.loadConfig (disk w') "config.json") = true ->
        loaded w' = cache_var (Client.main w) ->
        clock_at_check w' - clock_at_store w < 10 * time.Minute ->
        requests (Client.main w') = [] /\
        (forall d ds,
            slice_list (Weather first) = d :: ds ->
            stdout (Client.main w') =
              [WeatherInFromCache (Name first);
               Temperature (temperatureCelsius first);
               HumidityPercent (Humidity (Main first));
               DescriptionOf (Description d)] /\
            exit (Client.main w') = Exit 0) /\
        (slice_list (Weather first) = [] ->
         stdout (Client.main w') =
           [WeatherInFromCache (Name first);
            Temperature (temperatureCelsius first);
            HumidityPercent (Humidity (Main first))] /\
         exit (Client.main w') = Panicked IndexOutOfRange)) /\
  (forall w first rest c0,
      collects w first rest ->
      loaded w = Some c0 ->
      Data c0 = None ->
      exit (Client.main w) = Panicked NilMapAssignment /\
      cache_var (Client.main w) = Some c0 /\
      map_index (Data c0) (flag_city w) = None /\
      disk_after (Client.main w) = disk w).
Proof.
  split; [|split].
  - assert (Hc : collects Scenario.weatherapi_only zero_WeatherData []).
    { exists Scenario.keys.
      repeat split; vm_compute; (reflexivity || discriminate). }
    repeat split; try exact Hc; vm_compute; reflexivity.
  - intros w first rest Hc Hmap.
    destruct (collects_stores w first rest Hc Hmap)
      as (data & Hdata & Hexit & Hvar & Hdisk).
    split; [exact Hexit|]. split.
    + eexists. split; [exact Hvar|]. split; [apply lookup_insert_eq|].
      intros doc Hfault Hdoc. rewrite Hdisk. unfold Client.saveCache.
      now rewrite Hdoc, Hfault.
    + intros w' Hsame Hcfg2 Hload Hfresh.
      destruct (Client.loadConfig (disk w') "config.json") as [config2|] eqn:Hc2;
        [|discriminate].
      rewrite Hvar in Hload.
      assert (Hhit : hit w' = Some first).
      { apply hit_Some. eexists. split; [exact Hload|]. split.
        - now apply fresh_iff.
        - simpl. rewrite Hsame. apply lookup_insert_eq. }
      assert (Hcity : flag_city w' <> "").
      { rewrite Hsame. now destruct Hc as (? & ? & _). }
      destruct (main_hit w' config2 first Hcity Hc2 Hhit)
        as (Hreq & Hout & Hend & _).
      assert (Hpre : preamble w' = []).
      { unfold preamble. unfold loaded in Hload.
        now rewrite (loadCache_Some _ _ _ Hload). }
      rewrite Hpre in Hout. simpl in Hout.
      split; [exact Hreq|]. rewrite Hout, Hend. unfold description_line.
      split.
      * intros d ds ->. done.
      * intros ->. done.
  - intros w first rest c0 Hc Hload Hnil.
    destruct (collects_nil_map w first rest c0 Hc Hload Hnil)
      as (_ & Hexit & Hvar & Hdisk).
    repeat split; try done. now rewrite Hnil.
Qed.

(** At a reading that has a description: OpenWeatherMap answers on the
    first run, and the run three minutes later prints its four lines. *)
Lemma stored_reading_hit_stops_without_description_witness :
  requests (Client.main Scenario.second_run) = [] /\
  stdout (Client.main Scenario.second_run) =
    [WeatherInFromCache "London"; Temperature 21.5; HumidityPercent 80;
     DescriptionOf "clear sky"] /\
  exit (Client.main Scenario.second_run) = Exit 0.
Proof.
  assert (Hc : collects Scenario.first_run Scenario.london_reading []).
  { exists Scenario.keys.
    repeat split; vm_compute; (reflexivity || discriminate). }
  assert (Hmap : forall c0, loaded Scenario.first_run = Some c0 ->
                            Data c0 <> None)
    by (intros c0 H; vm_compute in H; discriminate).
  destruct (proj1 (proj2 stored_reading_hit_stops_without_description)
              Scenario.first_run Scenario.london_reading [] Hc Hmap)
    as (_ & _ & Hnext).
  destruct (Hnext Scenario.second_run) as (Hreq & Hdesc & _);
    try (vm_compute; reflexivity).
  destruct (Hdesc {| Description := "clear sky" |} [] eq_refl) as [Hout Hexit].
  split; [exact Hreq|]. split; [exact Hout|exact Hexit].
Defined.

(** C10: on a cache hit line 60 reads index 0 of the cached reading's
    weather list with no check.  The run ends well when the list has an
    element and stops with an index out of range when it has none; and there
    is a cache file that loads without error, is fresh and holds the city,
    with an empty weather array, on which the run stops so. *)
Theorem cached_weather_index_unchecked :
  (forall w config reading,
      flag_city w <> "" ->
      Client.loadConfig (disk w) "config.json" = Ok config ->
      hit w = Some reading ->
      (slice_list (Weather reading) <> [] -> exit (Client.main w) = Exit 0) /\
      (slice_list (Weather reading) = [] ->
       exit (Client.main w) = Panicked IndexOutOfRange)) /\
  (exists w c reading,
      Client.loadCache (disk w) "cache.json" = (Some c, None) /\
      Client.fresh (clock_at_check w) c = true /\
      map_index (Data c) (flag_city w) = Some reading /\
      Weather reading = Some [] /\
      exit (Client.main w) = Panicked IndexOutOfRange).
Proof.
  split.
  - intros w config reading Hcity Hcfg Hhit.
    destruct (main_hit w config reading Hcity Hcfg Hhit) as (_ & _ & -> & _).
    destruct (slice_list (Weather reading)); split; done.
  - exists Scenario.cached_no_weather,
      {| Data := Some {["London" :=
                          {| Main := {| Temp := 21.5; Humidity := 80 |};
                             Weather := Some []; Name := "London" |}]};
         Timestamp := Scenario.noon - 5 * time.Minute |},
      {| Main := {| Temp := 21.5; Humidity := 80 |};
         Weather := Some []; Name := "London" |}.
    repeat split; vm_compute; reflexivity.
Qed.

Lemma cached_weather_index_unchecked_witness :
  hit Scenario.cached = Some Scenario.london_reading /\
  exit (Client.main Scenario.cached) = Exit 0.
Proof.
  assert (Hhit : hit Scenario.cached = Some Scenario.london_reading)
    by (vm_compute; reflexivity).
  split; [exact Hhit|].
  apply (proj1 cached_weather_index_unchecked Scenario.cached Scenario.keys
           Scenario.london_reading); try (vm_compute; reflexivity);
    vm_compute; discriminate.
Defined.

(** ** Saving and loading (lines 136 to 161) *)

Section Roundtrip.

Import json.

Lemma coerce_valid s : utf8.ValidString s = true -> utf8.coerce s = s.
Proof. unfold utf8.ValidString. apply String.eqb_eq. Qed.

(** Decoders of the objects that the encoder writes, field by field. *)
Lemma MainT_into_Object old t h :
  MainT_into old (Object [("temp", t); ("humidity", h)]) =
  (do x <- float64_into (Temp old) t;
   do z <- int_into (Humidity old) h;
   Ok {| Temp := x; Humidity := z |}).
Proof.
  unfold MainT_into, struct_into. simpl.
  now destruct (float64_into (Temp old) t).
Qed.

Lemma Condition_into_Object old d :
  Condition_into old (Object [("description", d)]) =
  (do s <- string_into (Description old) d; Ok {| Description := s |}).
Proof. reflexivity. Qed.

Lemma WeatherData_into_Object old m l n :
  WeatherData_into old (Object [("main", m); ("weather", l); ("name", n)]) =
  (do m' <- MainT_into (Main old) m;
   do l' <- slice_into zero_Condition Condition_into (Weather old) [] l;
   do n' <- string_into (Name old) n;
   Ok {| Main := m'; Weather := l'.1; Name := n' |}).
Proof.
  unfold WeatherData_into, struct_into. simpl.
  destruct (MainT_into (Main old) m); simpl; [|done].
  destruct (slice_into zero_Condition Condition_into (Weather old) [] l);
    simpl; [|done].
  now destruct (string_into (Name old) n).
Qed.

(** With nothing in the backing array every element starts from zero. *)
Lemma elements_into_nil {A} (zero : A) (elem : A -> value -> result A) l :
  elements_into zero elem [] l = each (elem zero) l.
Proof. induction l as [|j l IH]; simpl; [done|]. now rewrite IH. Qed.

Lemma Cache_into_Object old d t :
  Cache_into old (Object [("data", d); ("timestamp", t)]) =
  (do m <- map_into zero_WeatherData WeatherData_into (Data old) d;
   do ts <- Time_into (Timestamp old) t;
   Ok {| Data := m; Timestamp := ts |}).
Proof.
  unfold Cache_into, struct_into. simpl.
  now destruct (map_into zero_WeatherData WeatherData_into (Data old) d).
Qed.


Lemma each_roundtrip {A} (enc : A -> result value) (dec : value -> result A) l :
  Forall (fun a => exists v, enc a = Ok v /\ dec v = Ok a) l ->
  exists vs, each enc l = Ok vs /\ each dec vs = Ok l.
Proof.
  induction 1 as [|a l (v & Hv & Hd) _ (vs & Hvs & Hds)]; simpl.
  - eauto.
  - exists (v :: vs). rewrite Hv, Hvs. simpl. now rewrite Hd, Hds.
Qed.

Lemma Condition_roundtrip c :
  utf8.ValidString (Description c) = true ->
  exists v, of_Condition c = Ok v /\ Condition_into zero_Condition v = Ok c.
Proof.
  intros Hs. eexists. split; [reflexivity|].
  rewrite Condition_into_Object. simpl. rewrite coerce_valid by done.
  now destruct c.
Qed.

Lemma MainT_roundtrip m :
  is_finite (Temp m) = true -> fits_int (Humidity m) = true ->
  exists v, of_MainT m = Ok v /\ MainT_into zero_MainT v = Ok m.
Proof.
  intros Hf Hi. unfold of_MainT, of_float64. rewrite Hf. simpl.
  eexists. split; [reflexivity|].
  rewrite MainT_into_Object. simpl. rewrite Hf, Hi. simpl. now destruct m.
Qed.

Lemma slice_roundtrip s :
  Forall (fun c => utf8.ValidString (Description c) = true) (slice_list s) ->
  exists v, of_slice of_Condition s = Ok v /\
            slice_into zero_Condition Condition_into None [] v = Ok (s, []).
Proof.
  destruct s as [l|]; simpl; [|eauto].
  intros Hl.
  destruct (each_roundtrip of_Condition (Condition_into zero_Condition) l)
    as (vs & Hvs & Hds).
  { eapply Forall_impl; [exact Hl|]. intros c. apply Condition_roundtrip. }
  rewrite Hvs. simpl. eexists. split; [reflexivity|].
  destruct vs as [|v vs].
  - simpl in Hds. now injection Hds as <-.
  - unfold slice_into. cbn [slice_list app]. rewrite elements_into_nil, Hds.
    reflexivity.
Qed.

Lemma WeatherData_roundtrip r :
  WeatherData_encodable r ->
  exists v, of_WeatherData r = Ok v /\
            WeatherData_into zero_WeatherData v = Ok r.
Proof.
  intros (Hf & Hi & Hn & Hw).
  destruct (MainT_roundtrip (Main r) Hf Hi) as (vm & Hvm & Hdm).
  destruct (slice_roundtrip (Weather r) Hw) as (vl & Hvl & Hdl).
  unfold of_WeatherData. rewrite Hvm, Hvl. simpl.
  eexists. split; [reflexivity|].
  rewrite WeatherData_into_Object. simpl. rewrite Hdm, Hdl. simpl.
  rewrite coerce_valid by done. now destruct r.
Qed.

(** The keys of a map are written in order and read back one insertion
    after the other: the map read is the map written. *)
Lemma entries_roundtrip (l : list (string * WeatherData)) :
  Forall (fun kv => utf8.ValidString kv.1 = true /\ WeatherData_encodable kv.2) l ->
  exists kvs,
    each (fun kv => do v <- of_WeatherData kv.2; Ok (utf8.coerce kv.1, v)) l
      = Ok kvs /\
    forall m0 : gmap string WeatherData,
      fold_left
        (fun acc kv =>
           do m <- acc;
           do a <- WeatherData_into zero_WeatherData kv.2;
           Ok (<[kv.1 := a]> m))
        kvs (Ok m0)
      = Ok (fold_left (fun m kv => <[kv.1 := kv.2]> m) l m0).
Proof.
  induction 1 as [|[k r] l [Hk Hr] _ (kvs & Hkvs & Hfold)]; simpl.
  - eauto.
  - destruct (WeatherData_roundtrip r Hr) as (v & Hv & Hd).
    simpl in *. rewrite Hv, Hkvs. simpl. eexists. split; [reflexivity|].
    intros m0. simpl. rewrite Hd. simpl. rewrite coerce_valid by done.
    apply Hfold.
Qed.

Lemma fold_left_insert_list_to_map (l : list (string * WeatherData)) :
  NoDup l.*1 ->
  fold_left (fun m kv => <[kv.1 := kv.2]> m) l (∅ : gmap string WeatherData)
  = list_to_map l.
Proof.
  intros Hnd.
  transitivity (list_to_map (rev l) : gmap string WeatherData).
  - symmetry. apply (fold_left_rev_right (fun kv m => <[kv.1 := kv.2]> m)).
  - symmetry. apply list_to_map_proper; [done|]. apply Permutation_rev.
Qed.

Lemma map_roundtrip (m : option (gmap string WeatherData)) :
  (forall city r,
      map_index m city = Some r ->
      utf8.ValidString city = true /\ WeatherData_encodable r) ->
  exists v, of_map of_WeatherData m = Ok v /\
            map_into zero_WeatherData WeatherData_into None v = Ok m.
Proof.
  destruct m as [m|]; simpl; [|eauto].
  intros Hm.
  set (l := merge_sort key_le (map_to_list m)).
  assert (Hperm : l ≡ₚ map_to_list m) by apply merge_sort_Permutation.
  destruct (entries_roundtrip l) as (kvs & Hkvs & Hfold).
  { apply Forall_forall. intros [k r] Hin. apply Hm.
    apply elem_of_map_to_list. now rewrite <- Hperm. }
  rewrite Hkvs. simpl. eexists. split; [reflexivity|].
  simpl. rewrite Hfold. simpl. do 2 f_equal.
  rewrite fold_left_insert_list_to_map.
  - rewrite (list_to_map_proper l (map_to_list m)), list_to_map_to_list; try done.
    rewrite Hperm. apply NoDup_fst_map_to_list.
  - rewrite Hperm. apply NoDup_fst_map_to_list.
Qed.

Lemma Cache_roundtrip c :
  Cache_encodable c ->
  exists v, of_Cache c = Ok v /\ Cache_into zero_Cache v = Ok c.
Proof.
  intros [Ht Hm].
  destruct (map_roundtrip (Data c) Hm) as (vd & Hvd & Hdd).
  unfold of_Cache, of_Time. rewrite Hvd, Ht. simpl.
  eexists. split; [reflexivity|].
  rewrite Cache_into_Object. simpl. rewrite Hdd. simpl. now destruct c.
Qed.

Lemma each_ok {A B} (f : A -> result B) l :
  Forall (fun a => is_ok (f a) = true) l -> is_ok (each f l) = true.
Proof.
  induction 1 as [|a l Ha _ IH]; simpl; [done|].
  destruct (f a); [|done]. simpl. now destruct (each f l).
Qed.

(** A temperature that is no finite number stops the encoder, whatever
    else the cache holds: the map is written before the timestamp, and a
    reading is refused for its temperature only. *)
Lemma each_Err {A B} (f : A -> result B) (e : error) l :
  (forall a e', a ∈ l -> f a = Err e' -> e' = e) ->
  (exists a, a ∈ l /\ is_ok (f a) = false) ->
  each f l = Err e.
Proof.
  induction l as [|a l IH]; intros Hall (b & Hb & Hfail).
  - now apply elem_of_nil in Hb.
  - simpl. destruct (f a) as [v|e'] eqn:Hfa; simpl.
    + rewrite IH; [done| |].
      * intros a' e' Ha'. apply Hall. rewrite elem_of_cons. now right.
      * exists b. split; [|done].
        apply elem_of_cons in Hb as [->|Hb]; [|done].
        rewrite Hfa in Hfail. discriminate.
    + f_equal. apply (Hall a); [apply list_elem_of_here|done].
Qed.

Lemma is_finite_false x :
  is_nan x = true \/ is_infinity x = true -> is_finite x = false.
Proof. unfold is_finite. intros [->| ->]; [done|]. now rewrite orb_true_r. Qed.

Lemma of_WeatherData_Err r e :
  of_WeatherData r = Err e -> e = UnsupportedValueError.
Proof.
  unfold of_WeatherData, of_MainT, of_float64.
  destruct (is_finite (Temp (Main r))); simpl; [|congruence].
  destruct (Weather r) as [l|]; simpl; [|done].
  assert (Hl : is_ok (each of_Condition l) = true).
  { apply each_ok. apply Forall_forall. done. }
  now destruct (each of_Condition l).
Qed.

Lemma of_WeatherData_not_finite r :
  is_finite (Temp (Main r)) = false ->
  of_WeatherData r = Err UnsupportedValueError.
Proof. intros H. unfold of_WeatherData, of_MainT, of_float64. now rewrite H. Qed.

Lemma MarshalIndent_not_finite c city r :
  map_index (Data c) city = Some r ->
  is_finite (Temp (Main r)) = false ->
  MarshalIndent of_Cache c = Err UnsupportedValueError.
Proof.
  intros Hr Hf. unfold MarshalIndent, of_Cache.
  destruct (Data c) as [m|]; simpl in *; [|done].
  match goal with
  | |- context [each ?f ?l] =>
      rewrite (each_Err f UnsupportedValueError l)
  end; [done| |].
  - intros [k r'] e' _ He'. simpl in He'.
    destruct (of_WeatherData r') eqn:E; simpl in He'; [done|].
    injection He' as <-. now apply (of_WeatherData_Err r').
  - exists (city, r). split.
    + rewrite merge_sort_Permutation. now apply elem_of_map_to_list.
    + simpl. now rewrite of_WeatherData_not_finite.
Qed.

End Roundtrip.

(** C7, as stated, at a cache whose temperature is NaN: [json.MarshalIndent]
    refuses it, [saveCache] returns that error and writes nothing, and loading
    from the path finds no file and so no entry.  At a cache whose key is not
    UTF-8 the save succeeds, and the entry comes back under another key. *)
Lemma unencodable_cache_is_not_reproduced :
  Client.saveCache None ∅ "cache.json" Scenario.nan_cache
    = (Some UnsupportedValueError, ∅) /\
  Client.loadCache
    (Client.saveCache None ∅ "cache.json" Scenario.nan_cache).2 "cache.json"
    = (None, None) /\
  (Client.saveCache None ∅ "cache.json" Scenario.latin1_cache).1 = None /\
  map_index (Data Scenario.latin1_cache) Scenario.latin1_city
    = Some Scenario.london_reading /\
  (Client.loadCache
     (Client.saveCache None ∅ "cache.json" Scenario.latin1_cache).2
     "cache.json").1
    ≫= (fun c => map_index (Data c) Scenario.latin1_city) = None.
Proof. vm_compute. repeat split; reflexivity. Qed.

(** C7, amended: for every cache that [json.MarshalIndent] writes without
    loss (finite temperatures, UTF-8 keys, names and descriptions, a
    timestamp in the years 0 to 9999), when the write succeeds, saving to a
    path and loading from it returns no error and the very same cache:
    entries and timestamp.  For every cache that holds a temperature that is
    NaN or infinite, whatever else it holds and whatever the disk does,
    [saveCache] returns the encoder's error and leaves the disk as it was. *)
Theorem save_then_load_roundtrip fs filename c :
  (Cache_encodable c ->
   (Client.saveCache None fs filename c).1 = None /\
   Client.loadCache (Client.saveCache None fs filename c).2 filename
     = (Some c, None)) /\
  (forall city r fault,
      map_index (Data c) city = Some r ->
      is_nan (Temp (Main r)) = true \/ is_infinity (Temp (Main r)) = true ->
      Client.saveCache fault fs filename c = (Some UnsupportedValueError, fs)).
Proof.
  split.
  - intros Hc. destruct (Cache_roundtrip c Hc) as (v & Hv & Hd).
    unfold Client.saveCache, json.MarshalIndent, ioutil.WriteFile.
    rewrite Hv. simpl. split; [reflexivity|].
    unfold Client.loadCache, ioutil.ReadFile. rewrite lookup_insert_eq.
    simpl. now rewrite Hd.
  - intros city r fault Hr Hbad. unfold Client.saveCache.
    now rewrite (MarshalIndent_not_finite c city r Hr (is_finite_false _ Hbad)).
Qed.

Lemma save_then_load_roundtrip_witness :
  (Cache_encodable Scenario.two_cities /\
   (Client.saveCache None ∅ "cache.json" Scenario.two_cities).1 = None /\
   Client.loadCache
     (Client.saveCache None ∅ "cache.json" Scenario.two_cities).2 "cache.json"
     = (Some Scenario.two_cities, None)) /\
  Client.saveCache (Some Scenario.disk_full) (Scenario.disk_with None)
    "cache.json" Scenario.nan_cache
    = (Some UnsupportedValueError, Scenario.disk_with None).
Proof.
  assert (He : Cache_encodable Scenario.two_cities).
  { split; [vm_compute; reflexivity|].
    intros city r H. simpl in H.
    apply lookup_insert_Some in H as [[<- <-]|[_ H]];
      [|apply lookup_singleton_Some in H as [<- <-]];
      (split; [vm_compute; reflexivity|]);
      repeat split; try (vm_compute; reflexivity); repeat constructor. }
  split.
  - split; [exact He|].
    exact (proj1 (save_then_load_roundtrip ∅ "cache.json" Scenario.two_cities)
             He).
  - apply (proj2 (save_then_load_roundtrip (Scenario.disk_with None)
                    "cache.json" Scenario.nan_cache)
             "London" {| Main := {| Temp := nan; Humidity := 80 |};
                         Weather := Some [{| Description := "clear sky" |}];
                         Name := "London" |}).
    + apply lookup_singleton_eq.
    + left. reflexivity.
Defined.

(** ** Further properties of the orchestrator *)

(** X1: with a cache loaded, the run calls no provider exactly when the
    cache is less than ten minutes old and holds the queried city; from ten
    minutes on both providers are called, city present or not. *)
Theorem fetch_skipped_iff_fresh_and_present w config c :
  flag_city w <> "" ->
  Client.loadConfig (disk w) "config.json" = Ok config ->
  Client.loadCache (disk w) "cache.json" = (Some c, None) ->
  (requests (Client.main w) = [] <->
   clock_at_check w - Timestamp c < 10 * time.Minute /\
   is_Some (map_index (Data c) (flag_city w))) /\
  (10 * time.Minute <= clock_at_check w - Timestamp c ->
   requests (Client.main w) =
     [Client.OpenWeatherMap_url (flag_city w) (OpenWeatherMapAPIKey config);
      Client.WeatherAPI_url (flag_city w) (WeatherAPIKey config)]).
Proof.
  intros Hcity Hcfg Hload.
  assert (Hhit : hit w = if Client.fresh (clock_at_check w) c
                         then map_index (Data c) (flag_city w) else None).
  { unfold hit, loaded. now rewrite Hload. }
  rewrite (main_run w config) by done. rewrite Hhit.
  pose proof (fresh_iff (clock_at_check w) c) as Hfresh.
  destruct (Client.fresh (clock_at_check w) c).
  - destruct (map_index (Data c) (flag_city w)) as [reading|] eqn:Hm.
    + rewrite report_cached_requests. split.
      * split; [|done]. intros _. split; [now apply Hfresh|eauto].
      * intros Hstale. assert (clock_at_check w - Timestamp c < 10 * time.Minute)
          by now apply Hfresh. lia.
    + rewrite fetch_and_store_requests. split; [|done].
      split; [done|]. intros [_ [? ?]]. done.
  - rewrite fetch_and_store_requests. split; [|done].
    split; [done|]. intros [Hlt _]. apply Hfresh in Hlt. done.
Qed.

Lemma fetch_skipped_iff_fresh_and_present_witness :
  is_Some (map_index (Data (default zero_Cache (loaded Scenario.stale)))
             (flag_city Scenario.stale)) /\
  requests (Client.main Scenario.stale) =
    [Client.OpenWeatherMap_url "London" "owm-key";
     Client.WeatherAPI_url "London" "wapi-key"].
Proof.
  split; [vm_compute; eauto|].
  refine (proj2 (fetch_skipped_iff_fresh_and_present Scenario.stale
                   Scenario.keys
                   {| Data := Some {["London" := Scenario.london_reading]};
                      Timestamp := Scenario.noon - 10 * time.Minute |}
                   _ _ _) _);
    vm_compute; (reflexivity || discriminate).
Defined.

(** X2: a cache hit on a reading that has a description prints the
    cached name, temperature, humidity and description, calls no provider,
    ends with code 0 and leaves the cache and the disk as they were. *)
Theorem cache_hit_prints_cached_reading w config reading first rest :
  flag_city w <> "" ->
  Client.loadConfig (disk w) "config.json" = Ok config ->
  hit w = Some reading ->
  slice_list (Weather reading) = first :: rest ->
  requests (Client.main w) = [] /\
  stdout (Client.main w) =
    [WeatherInFromCache (Name reading);
     Temperature (temperatureCelsius reading);
     HumidityPercent (Humidity (Main reading));
     DescriptionOf (Description first)] /\
  exit (Client.main w) = Exit 0 /\
  cache_var (Client.main w) = loaded w /\
  disk_after (Client.main w) = disk w.
Proof.
  intros Hcity Hcfg Hhit Hw.
  destruct (main_hit w config reading Hcity Hcfg Hhit)
    as (Hreq & Hout & Hexit & Hvar & Hdisk).
  rewrite Hout, Hexit. unfold description_line. rewrite Hw.
  apply hit_Some in Hhit as (c & Hload & _). unfold preamble.
  unfold loaded in Hload. rewrite (loadCache_Some _ _ _ Hload).
  repeat split; done.
Qed.

Lemma cache_hit_prints_cached_reading_witness :
  requests (Client.main Scenario.cached) = [] /\
  stdout (Client.main Scenario.cached) =
    [WeatherInFromCache (Name Scenario.london_reading);
     Temperature (temperatureCelsius Scenario.london_reading);
     HumidityPercent (Humidity (Main Scenario.london_reading));
     DescriptionOf (Description {| Description := "clear sky" |})] /\
  exit (Client.main Scenario.cached) = Exit 0 /\
  cache_var (Client.main Scenario.cached) = loaded Scenario.cached /\
  disk_after (Client.main Scenario.cached) = disk Scenario.cached.
Proof.
  apply (cache_hit_prints_cached_reading Scenario.cached Scenario.keys
           Scenario.london_reading {| Description := "clear sky" |} []);
    vm_compute; (reflexivity || discriminate).
Defined.

(** X3: when the loaded cache has no map (a cache file without a data
    object), a run that collects a reading prints the two lines of the
    average and nothing else, and then panics on the assignment of line 112;
    the cache and the disk stay as they were. *)
Theorem store_into_nil_map_panics w config c first rest :
  fetches (Client.main w) ->
  Client.loadConfig (disk w) "config.json" = Ok config ->
  loaded w = Some c ->
  Data c = None ->
  Client.weatherDataList w config = first :: rest ->
  stdout (Client.main w) =
    [AverageTemperatureIn (Name first);
     Temperature (Client.avgTemp (first :: rest))] /\
  exit (Client.main w) = Panicked NilMapAssignment /\
  cache_var (Client.main w) = Some c /\
  disk_after (Client.main w) = disk w.
Proof.
  intros Hf Hcfg Hload Hnil Hl.
  destruct (fetches_inv w Hf) as (config' & Hcity & Hcfg' & Hhit & _).
  apply (collects_nil_map w first rest c); try done.
  exists config. auto.
Qed.

Lemma store_into_nil_map_panics_witness :
  loaded Scenario.cache_without_data = Some zero_Cache /\
  stdout (Client.main Scenario.cache_without_data) =
    [AverageTemperatureIn "London";
     Temperature (Client.avgTemp [Scenario.london_reading])] /\
  exit (Client.main Scenario.cache_without_data) = Panicked NilMapAssignment /\
  cache_var (Client.main Scenario.cache_without_data) = Some zero_Cache /\
  disk_after (Client.main Scenario.cache_without_data)
    = disk Scenario.cache_without_data.
Proof.
  assert (Hload : loaded Scenario.cache_without_data = Some zero_Cache)
    by (vm_compute; reflexivity).
  split; [exact Hload|].
  apply (store_into_nil_map_panics Scenario.cache_without_data Scenario.keys
           zero_Cache Scenario.london_reading []);
    try exact Hload; vm_compute; (reflexivity || discriminate).
Defined.

(** ** Exit codes and failures that are not fatal *)

Section Paths.

Import Client.

Lemma fetch_and_store_exit w config out cache :
  exit (fetch_and_store w config out cache) =
  match weatherDataList w config with
  | [] => Exit 1
  | _ :: _ =>
      match cache with
      | Some {| Data := None |} => Panicked NilMapAssignment
      | _ => Exit 0
      end
  end.
Proof.
  unfold fetch_and_store.
  destruct (weatherDataList w config) as [|first rest]; [done|].
  destruct cache as [[[data|] ts]|]; simpl; try done;
    now destruct (saveCache _ _ _ _) as [[err|] fs].
Qed.

Lemma saveCache_other_path fault fs filename cache other :
  other <> filename ->
  (saveCache fault fs filename cache).2 !! other = fs !! other.
Proof.
  intros Hne. unfold saveCache, ioutil.WriteFile.
  destruct (json.MarshalIndent json.of_Cache cache); [|done].
  destruct fault as [[e []]|]; simpl; try done; now rewrite lookup_insert_ne.
Qed.

End Paths.

(** X4: the run ends with exit code 1 exactly when the city is empty, or
    the configuration does not load, or the providers were called and no
    reading was collected; in the first two cases nothing is asked of the
    network. *)
Theorem exit_code_one_iff w :
  (exit (Client.main w) = Exit 1 <->
   flag_city w = "" \/
   is_ok (Client.loadConfig (disk w) "config.json") = false \/
   (fetches (Client.main w) /\
    forall config,
      Client.loadConfig (disk w) "config.json" = Ok config ->
      Client.weatherDataList w config = [])) /\
  (flag_city w = "" \/
   is_ok (Client.loadConfig (disk w) "config.json") = false ->
   requests (Client.main w) = []).
Proof.
  destruct (String.eqb_spec (flag_city w) "") as [Hc|Hc].
  { rewrite main_no_city by done. simpl. split; [|done]. split; auto. }
  destruct (Client.loadConfig (disk w) "config.json") as [config|err] eqn:Hcfg.
  2:{ rewrite (main_no_config w err) by done. simpl. split; [|done].
      split; auto. }
  rewrite (main_run w config) by done. simpl. split.
  2:{ intros [?|?]; done. }
  destruct (hit w) as [reading|].
  - split.
    + unfold Client.report_cached.
      destruct (slice_list (Weather reading)); simpl; done.
    + intros [?|[?|[Hf _]]]; try done.
      unfold fetches in Hf. now rewrite report_cached_requests in Hf.
  - rewrite fetch_and_store_exit. split.
    + intros Hexit. right. right. split.
      * unfold fetches. now rewrite fetch_and_store_requests.
      * intros config' [= <-].
        destruct (Client.weatherDataList w config); [done|].
        destruct (loaded w) as [[[d|] ts]|]; done.
    + intros [?|[?|[_ Hl]]]; try done. now rewrite (Hl config eq_refl).
Qed.

(** X5: [loadConfig] returns an error exactly when the file is missing,
    cannot be read, or holds bytes that do not decode into a [Config]; a
    missing file is an error here, where [loadCache] returns none. *)
Theorem loadConfig_fails_iff fs filename :
  (is_ok (Client.loadConfig fs filename) = false <->
   fs !! filename = None \/
   (exists msg, fs !! filename = Some (Unreadable msg)) \/
   (exists data,
       fs !! filename = Some (Regular data) /\
       is_ok (json.Unmarshal json.Config_into zero_Config data) = false)) /\
  (fs !! filename = None ->
   Client.loadConfig fs filename = Err ErrNotExist /\
   Client.loadCache fs filename = (None, None)).
Proof.
  unfold Client.loadConfig, Client.loadCache, ioutil.ReadFile. split.
  - destruct (fs !! filename) as [[msg|data]|]; simpl.
    + split; [eauto|done].
    + destruct (json.Unmarshal json.Config_into zero_Config data) eqn:Hu;
        simpl; split; try done.
      * intros [?|[[? ?]|(d & [= <-] & Hd)]]; try done.
        now rewrite Hu in Hd.
      * intros _. right. right. exists data. now rewrite Hu.
    + split; auto.
  - now intros ->.
Qed.

Lemma loadConfig_fails_iff_witness :
  Client.loadConfig (disk Scenario.no_config) "config.json" = Err ErrNotExist /\
  Client.loadCache (disk Scenario.no_config) "config.json" = (None, None).
Proof.
  apply (proj2 (loadConfig_fails_iff (disk Scenario.no_config) "config.json")).
  vm_compute. reflexivity.
Defined.

Lemma loadCache_error_no_cache fs filename err :
  (Client.loadCache fs filename).2 = Some err ->
  (Client.loadCache fs filename).1 = None.
Proof.
  unfold Client.loadCache.
  destruct (ioutil.ReadFile fs filename) as [data|e].
  - now destruct (json.Unmarshal json.Cache_into zero_Cache data).
  - now destruct (os_IsNotExist e).
Qed.

(** X6: a cache file that cannot be read or decoded does not stop the run:
    the error is the first line printed and both providers are called,
    whatever they answer.  When no reading is collected the failure line
    follows, the run ends with code 1 and the disk is as it was; when a
    reading is collected the run ends with code 0 and the cache it keeps, and
    hands to [saveCache], holds the queried city alone. *)
Theorem unusable_cache_is_replaced w config err :
  flag_city w <> "" ->
  Client.loadConfig (disk w) "config.json" = Ok config ->
  (Client.loadCache (disk w) "cache.json").2 = Some err ->
  head (stdout (Client.main w)) = Some (ErrorLoadingCache err) /\
  requests (Client.main w) =
    [Client.OpenWeatherMap_url (flag_city w) (OpenWeatherMapAPIKey config);
     Client.WeatherAPI_url (flag_city w) (WeatherAPIKey config)] /\
  (Client.weatherDataList w config = [] ->
   stdout (Client.main w) = [ErrorLoadingCache err; FailedToRetrieve] /\
   exit (Client.main w) = Exit 1 /\
   cache_var (Client.main w) = None /\
   disk_after (Client.main w) = disk w) /\
  (forall first rest,
      Client.weatherDataList w config = first :: rest ->
      exit (Client.main w) = Exit 0 /\
      cache_var (Client.main w) =
        Some {| Data := Some {[flag_city w := first]};
                Timestamp := clock_at_store w |} /\
      disk_after (Client.main w) =
        (Client.saveCache (write_fault w) (disk w) "cache.json"
           {| Data := Some {[flag_city w := first]};
              Timestamp := clock_at_store w |}).2).
Proof.
  intros Hcity Hcfg Herr.
  pose proof (loadCache_error_no_cache _ _ _ Herr) as Hnone.
  assert (Hhit : hit w = None) by (unfold hit, loaded; now rewrite Hnone).
  rewrite (main_run w config) by done. rewrite Hhit.
  rewrite fetch_and_store_requests.
  unfold loaded, preamble. rewrite Hnone, Herr.
  split; [|split; [reflexivity|split]].
  - destruct (Client.weatherDataList w config) as [|first rest] eqn:Hl.
    + now rewrite fetch_and_store_nothing.
    + now rewrite (fetch_and_store_saves w config _ None first rest ∅ Hl eq_refl).
  - intros Hl. now rewrite fetch_and_store_nothing.
  - intros first rest Hl.
    rewrite (fetch_and_store_saves w config _ None first rest ∅ Hl eq_refl).
    simpl. rewrite insert_empty. done.
Qed.

(** A cache file that is not JSON, with one provider up and with both
    down. *)
Lemma unusable_cache_is_replaced_witness :
  (head (stdout (Client.main Scenario.corrupt_cache))
     = Some (ErrorLoadingCache SyntaxError) /\
   exit (Client.main Scenario.corrupt_cache) = Exit 0 /\
   cache_var (Client.main Scenario.corrupt_cache) =
     Some {| Data := Some {["London" := Scenario.london_reading]};
             Timestamp := Scenario.noon + time.Second |}) /\
  (stdout (Client.main Scenario.corrupt_cache_offline)
     = [ErrorLoadingCache SyntaxError; FailedToRetrieve] /\
   exit (Client.main Scenario.corrupt_cache_offline) = Exit 1 /\
   disk_after (Client.main Scenario.corrupt_cache_offline)
     = disk Scenario.corrupt_cache_offline).
Proof.
  split.
  - assert (Hcity : flag_city Scenario.corrupt_cache <> "") by discriminate.
    assert (Hcfg : Client.loadConfig (disk Scenario.corrupt_cache) "config.json"
                   = Ok Scenario.keys) by (vm_compute; reflexivity).
    assert (Herr : (Client.loadCache (disk Scenario.corrupt_cache)
                      "cache.json").2 = Some SyntaxError)
      by (vm_compute; reflexivity).
    assert (Hl : Client.weatherDataList Scenario.corrupt_cache Scenario.keys
                 = [Scenario.london_reading]) by (vm_compute; reflexivity).
    destruct (unusable_cache_is_replaced Scenario.corrupt_cache Scenario.keys
                SyntaxError Hcity Hcfg Herr) as (Hhead & _ & _ & Hsome).
    destruct (Hsome Scenario.london_reading [] Hl) as (Hexit & Hvar & _).
    split; [exact Hhead|]. split; [exact Hexit|exact Hvar].
  - assert (Hcity : flag_city Scenario.corrupt_cache_offline <> "")
      by discriminate.
    assert (Hcfg : Client.loadConfig (disk Scenario.corrupt_cache_offline)
                     "config.json" = Ok Scenario.keys)
      by (vm_compute; reflexivity).
    assert (Herr : (Client.loadCache (disk Scenario.corrupt_cache_offline)
                      "cache.json").2 = Some SyntaxError)
      by (vm_compute; reflexivity).
    assert (Hl : Client.weatherDataList Scenario.corrupt_cache_offline
                   Scenario.keys = []) by (vm_compute; reflexivity).
    destruct (unusable_cache_is_replaced Scenario.corrupt_cache_offline
                Scenario.keys SyntaxError Hcity Hcfg Herr)
      as (_ & _ & Hnone & _).
    destruct (Hnone Hl) as (Hout & Hexit & _ & Hdisk).
    split; [exact Hout|]. split; [exact Hexit|exact Hdisk].
Defined.

(** X8: the run writes no file but [cache.json]: every other path of the
    disk, the configuration included, holds at the end what it held at the
    start. *)
Theorem only_the_cache_file_is_written w path :
  path <> "cache.json" ->
  disk_after (Client.main w) !! path = disk w !! path.
Proof.
  intros Hpath.
  destruct (String.eqb_spec (flag_city w) "") as [Hc|Hc].
  { now rewrite main_no_city. }
  destruct (Client.loadConfig (disk w) "config.json") as [config|err] eqn:Hcfg.
  2:{ now rewrite (main_no_config w err). }
  rewrite (main_run w config) by done.
  destruct (hit w) as [reading|].
  { unfold Client.report_cached.
    now destruct (slice_list (Weather reading)). }
  unfold Client.fetch_and_store.
  destruct (Client.weatherDataList w config) as [|first rest]; [done|].
  destruct (loaded w) as [[[d|] ts]|]; simpl; try done.
  - pose proof (saveCache_other_path (write_fault w) (disk w) "cache.json"
                  {| Data := Some (<[flag_city w := first]> d);
                     Timestamp := clock_at_store w |} path Hpath) as H.
    now destruct (Client.saveCache _ _ _ _) as [[?|] ?].
  - pose proof (saveCache_other_path (write_fault w) (disk w) "cache.json"
                  {| Data := Some (<[flag_city w := first]> ∅);
                     Timestamp := clock_at_store w |} path Hpath) as H.
    now destruct (Client.saveCache _ _ _ _) as [[?|] ?].
Qed.

Lemma only_the_cache_file_is_written_witness :
  disk_after (Client.main Scenario.first_run) !! "config.json"
  = disk Scenario.first_run !! "config.json".
Proof.
  apply only_the_cache_file_is_written. discriminate.
Defined.

(** ** The order of the two goroutines *)

Section Schedule.

Import Client.

Local Open Scope float_scope.

Lemma SF64add_comm x y : SF64add x y = SF64add y x.
Proof.
  unfold SF64add, SFadd.
  destruct x as [[]|[]| |sx mx ex], y as [[]|[]| |sy my ey]; try reflexivity.
  now rewrite (Z.min_comm ex ey), Z.add_comm.
Qed.

Lemma float_add_comm (x y : float) : x + y = y + x.
Proof. apply Prim2SF_inj. rewrite !add_spec. apply SF64add_comm. Qed.

Lemma totalTemp_swap a b : totalTemp [a; b] = totalTemp [b; a].
Proof.
  unfold totalTemp. simpl.
  rewrite (add_zero_assoc (Temp (Main b))), <- add_zero_comm.
  apply float_add_comm.
Qed.

Lemma avgTemp_schedule b owm wapi :
  avgTemp (collect (negb b) owm wapi) = avgTemp (collect b owm wapi).
Proof.
  unfold collect, appended.
  destruct b, owm as [x|], wapi as [y|]; simpl; try reflexivity;
    unfold avgTemp; f_equal; apply totalTemp_swap.
Qed.

Lemma collect_schedule_nil b owm wapi :
  collect (negb b) owm wapi = [] <-> collect b owm wapi = [].
Proof. rewrite !collect_nil. done. Qed.

Lemma Temperature_in_report w config out cache first rest t :
  weatherDataList w config = first :: rest ->
  Forall diagnostic out ->
  Temperature t ∈ stdout (fetch_and_store w config out cache) <->
  t = avgTemp (first :: rest).
Proof.
  intros Hl Hout.
  destruct (fetch_and_store_stdout w config out cache first rest Hl)
    as (tail & -> & Htail).
  rewrite !elem_of_app, !elem_of_cons. split.
  - intros [Hin|[[?|[[= ->]|Hin]]|Hin]]; try done.
    + rewrite Forall_forall in Hout. now apply Hout in Hin.
    + now apply elem_of_nil in Hin.
    + destruct Htail as [-> | [err ->]].
      * now apply elem_of_nil in Hin.
      * apply list_elem_of_singleton in Hin. done.
  - intros ->. auto.
Qed.

Lemma preamble_diagnostic w : Forall diagnostic (preamble w).
Proof.
  unfold preamble.
  destruct (snd (loadCache (disk w) "cache.json")); repeat constructor.
Qed.

End Schedule.

(** X9: which goroutine appends first changes neither the exit code, nor
    the calls made, nor the temperature the run prints: the sum of two
    [float64] temperatures does not depend on their order.  (The location
    printed and the reading stored are the first element's, and do.) *)
Theorem temperature_independent_of_schedule w :
  exit (Client.main (other_schedule w)) = exit (Client.main w) /\
  requests (Client.main (other_schedule w)) = requests (Client.main w) /\
  forall t,
    Temperature t ∈ stdout (Client.main (other_schedule w)) <->
    Temperature t ∈ stdout (Client.main w).
Proof.
  set (w' := other_schedule w).
  destruct (String.eqb_spec (flag_city w) "") as [Hc|Hc].
  { rewrite (main_no_city w), (main_no_city w') by done. done. }
  destruct (Client.loadConfig (disk w) "config.json") as [config|err] eqn:Hcfg.
  2:{ rewrite (main_no_config w err), (main_no_config w' err) by done. done. }
  rewrite (main_run w config), (main_run w' config) by done.
  change (hit w') with (hit w). change (preamble w') with (preamble w).
  change (loaded w') with (loaded w).
  destruct (hit w) as [reading|]; [done|].
  rewrite !fetch_and_store_exit, !fetch_and_store_requests.
  pose proof (avgTemp_schedule (owm_first w)
                (Client.getWeatherFromOpenWeatherMap (http_Get w) (flag_city w)
                   (OpenWeatherMapAPIKey config))
                (Client.getWeatherFromWeatherAPI (http_Get w) (flag_city w)
                   (WeatherAPIKey config))) as Havg.
  pose proof (collect_schedule_nil (owm_first w)
                (Client.getWeatherFromOpenWeatherMap (http_Get w) (flag_city w)
                   (OpenWeatherMapAPIKey config))
                (Client.getWeatherFromWeatherAPI (http_Get w) (flag_city w)
                   (WeatherAPIKey config))) as Hnil.
  fold (Client.weatherDataList w config) in Havg, Hnil.
  change (Client.collect (negb (owm_first w)) _ _)
    with (Client.weatherDataList w' config) in Havg, Hnil.
  destruct (Client.weatherDataList w config) as [|a l] eqn:Hl;
    destruct (Client.weatherDataList w' config) as [|a' l'] eqn:Hl'.
  - split; [done|]. split; [done|]. intros t.
    rewrite !fetch_and_store_nothing by done. done.
  - discriminate (proj2 Hnil eq_refl).
  - discriminate (proj1 Hnil eq_refl).
  - split; [done|]. split; [done|]. intros t.
    rewrite (Temperature_in_report w' config _ _ a' l'),
            (Temperature_in_report w config _ _ a l)
      by auto using preamble_diagnostic.
    now rewrite Havg.
Qed.

(** ** What decoded readings and caches are made of *)

Section Ranges.

Import json.

Lemma int_into_fits old j z :
  int_into old j = Ok z -> fits_int old = true -> fits_int z = true.
Proof.
  intros H Hold. revert H.
  destruct j as [| |[f [i|]]| | |]; simpl; try discriminate.
  - now intros [= <-].
  - destruct (fits_int i) eqn:E; [|discriminate]. now intros [= <-].
Qed.

Lemma MainT_into_in_range old j m :
  MainT_into old j = Ok m ->
  is_finite (Temp old) = true /\ fits_int (Humidity old) = true ->
  is_finite (Temp m) = true /\ fits_int (Humidity m) = true.
Proof.
  intros H Hold. revert H.
  apply (struct_into_invariant
           (fun m => is_finite (Temp m) = true /\ fits_int (Humidity m) = true));
    [|done].
  intros key into a j' a' Hkey [Hf Hi] Hinto.
  repeat case_match; simplify_eq; inv_bind Hinto; simpl;
    eauto using float64_into_finite, int_into_fits.
Qed.

Lemma WeatherData_into_in_range old j reading :
  WeatherData_into old j = Ok reading ->
  numbers_in_range old -> numbers_in_range reading.
Proof.
  intros H Hold. unfold WeatherData_into in H. inv_bind H. revert E.
  apply (struct_into_invariant (fun p => numbers_in_range p.1)); [|done].
  intros key into p j' p' Hkey Ha Hinto. unfold numbers_in_range in *.
  repeat case_match; simplify_eq; inv_bind Hinto; simpl;
    eauto using MainT_into_in_range.
Qed.

Lemma zero_in_range : numbers_in_range zero_WeatherData.
Proof. split; reflexivity. Qed.

Lemma fetchWeatherData_in_range get url reading :
  Client.fetchWeatherData get url = Ok reading -> numbers_in_range reading.
Proof.
  unfold Client.fetchWeatherData. intros H.
  destruct (get url) as [resp|]; [|discriminate].
  destruct (Body resp) as [[|v]|]; try discriminate. simpl in H.
  destruct (WeatherData_into zero_WeatherData v) as [r|] eqn:E; simplify_eq.
  eapply WeatherData_into_in_range; [exact E|]. apply zero_in_range.
Qed.

(** A property of every decoded element holds of every value of the map
    read. *)
Lemma map_into_invariant {A} (P : A -> Prop) (zero : A)
    (elem : A -> value -> result A) old j m :
  (forall j' a, elem zero j' = Ok a -> P a) ->
  (forall k a, map_index old k = Some a -> P a) ->
  map_into zero elem old j = Ok m ->
  forall k a, map_index m k = Some a -> P a.
Proof.
  intros Helem Hold.
  destruct j as [| | | | |kvs]; simpl; try discriminate.
  - now intros [= <-].
  - intros H. inv_bind H. rename a into m0, E into Hfold.
    assert (Hstart : forall k a, default ∅ old !! k = Some a -> P a).
    { destruct old as [m1|]; simpl; [exact Hold|].
      intros k a. now rewrite lookup_empty. }
    revert Hfold Hstart. generalize (default ∅ old).
    induction kvs as [|kv kvs IH]; simpl; intros m1 Hfold Hstart.
    + now injection Hfold as <-.
    + destruct (elem zero kv.2) as [a1|] eqn:Ea; simpl in Hfold.
      * apply (IH _ Hfold). intros k a.
        rewrite lookup_insert. case_decide; [|apply Hstart].
        intros [= <-]. eauto.
      * rewrite fold_left_Err in Hfold by done. discriminate.
Qed.

Lemma Cache_into_in_range old j c :
  Cache_into old j = Ok c ->
  (forall k r, map_index (Data old) k = Some r -> numbers_in_range r) ->
  forall k r, map_index (Data c) k = Some r -> numbers_in_range r.
Proof.
  intros H Hold. revert H.
  apply (struct_into_invariant
           (fun c => forall k r,
                map_index (Data c) k = Some r -> numbers_in_range r));
    [|done].
  intros key into a j' a' Hkey Ha Hinto.
  repeat case_match; simplify_eq; inv_bind Hinto; simpl; [|done].
  eapply map_into_invariant; [|exact Ha|eassumption].
  intros j'' r Hr. eapply WeatherData_into_in_range; [exact Hr|].
  apply zero_in_range.
Qed.

Lemma loadCache_in_range fs filename c city r :
  (Client.loadCache fs filename).1 = Some c ->
  map_index (Data c) city = Some r -> numbers_in_range r.
Proof.
  unfold Client.loadCache.
  destruct (ioutil.ReadFile fs filename) as [[|v]|e]; simpl.
  - discriminate.
  - destruct (Cache_into zero_Cache v) as [c'|] eqn:E; simpl; [|discriminate].
    intros [= ->]. eapply Cache_into_in_range; [exact E|]. done.
  - now destruct (os_IsNotExist e).
Qed.

(** Encoding fails on a temperature only. *)
Lemma of_WeatherData_ok r :
  is_finite (Temp (Main r)) = true -> is_ok (of_WeatherData r) = true.
Proof.
  intros Hf. unfold of_WeatherData, of_MainT, of_float64. rewrite Hf. simpl.
  assert (Hs : is_ok (of_slice of_Condition (Weather r)) = true).
  { destruct (Weather r) as [l|]; simpl; [|done].
    pose proof (each_ok of_Condition l) as H.
    destruct (each of_Condition l); [done|].
    apply H. apply Forall_forall. done. }
  now destruct (of_slice of_Condition (Weather r)).
Qed.

Lemma of_map_ok (m : option (gmap string WeatherData)) :
  (forall k r, map_index m k = Some r -> numbers_in_range r) ->
  is_ok (of_map of_WeatherData m) = true.
Proof.
  destruct m as [m|]; simpl; [|done]. intros Hm.
  match goal with
  | |- context [each ?f ?l] =>
      pose proof (each_ok f l) as H; destruct (each f l); [done|]
  end.
  apply H. apply Forall_forall. intros [k r] Hin.
  rewrite merge_sort_Permutation in Hin.
  apply elem_of_map_to_list in Hin. apply Hm in Hin as [Hf _].
  simpl. pose proof (of_WeatherData_ok r Hf).
  now destruct (of_WeatherData r).
Qed.

(** On a cache whose temperatures are finite, saving fails on the year of
    the timestamp or on the write, and on nothing else. *)
Lemma saveCache_error fault fs filename c :
  (forall k r, map_index (Data c) k = Some r -> numbers_in_range r) ->
  (Client.saveCache fault fs filename c).1 =
  if time.marshalable (Timestamp c) then ioutil.reason <$> fault
  else Some MarshalerError.
Proof.
  intros Hc. pose proof (of_map_ok (Data c) Hc) as Hm.
  unfold Client.saveCache, MarshalIndent, of_Cache, of_Time, ioutil.WriteFile.
  destruct (of_map of_WeatherData (Data c)); [|done]. simpl.
  destruct (time.marshalable (Timestamp c)); simpl; [|done].
  now destruct fault.
Qed.

Lemma MarshalIndent_ok c :
  (forall k r, map_index (Data c) k = Some r -> numbers_in_range r) ->
  time.marshalable (Timestamp c) = true ->
  is_ok (MarshalIndent of_Cache c) = true.
Proof.
  intros Hc Ht. pose proof (of_map_ok (Data c) Hc) as Hm.
  unfold MarshalIndent, of_Cache, of_Time.
  destruct (of_map of_WeatherData (Data c)); [|done]. simpl. now rewrite Ht.
Qed.

End Ranges.

(** X10: every reading that [fetchWeatherData] returns, and every entry
    of a cache that [loadCache] returns, has a finite temperature and a
    humidity within Go's [int]: no NaN and no infinity enters the
    program. *)
Theorem decoded_numbers_are_in_range :
  (forall get url reading,
      Client.fetchWeatherData get url = Ok reading ->
      numbers_in_range reading) /\
  (forall fs filename c city reading,
      (Client.loadCache fs filename).1 = Some c ->
      map_index (Data c) city = Some reading ->
      numbers_in_range reading).
Proof.
  split.
  - apply fetchWeatherData_in_range.
  - apply loadCache_in_range.
Qed.

Section Stored.

Import Client.

(** The cache a run stores holds numbers in range only: the entries it
    loaded and the reading it fetched. *)
Lemma stored_in_range w config first rest data :
  weatherDataList w config = first :: rest ->
  match loaded w with
  | Some c => Data c = Some data
  | None => data = ∅
  end ->
  forall k r,
    (<[flag_city w := first]> data) !! k = Some r -> numbers_in_range r.
Proof.
  intros Hl Hdata k r. rewrite lookup_insert. case_decide.
  - intros [= <-].
    assert (Hin : first ∈ weatherDataList w config)
      by (rewrite Hl; apply list_elem_of_here).
    apply elem_of_collect in Hin as [Hfrom|Hfrom];
      eapply fetchWeatherData_in_range; exact Hfrom.
  - intros Hk. unfold loaded in Hdata.
    destruct (loadCache (disk w) "cache.json").1 as [c|] eqn:Hc.
    + eapply (loadCache_in_range _ _ c k); [exact Hc|].
      rewrite Hdata. exact Hk.
    + subst data. now rewrite lookup_empty in Hk.
Qed.

End Stored.

Lemma saving_line_in_report out name t tail err :
  ErrorSavingCache err ∉ out ->
  ErrorSavingCache err ∈ out ++ [AverageTemperatureIn name; Temperature t] ++ tail ->
  ErrorSavingCache err ∈ tail.
Proof.
  intros Hout Hin. apply elem_of_app in Hin as [Hin|Hin]; [done|].
  apply elem_of_cons in Hin as [Hin|Hin]; [discriminate|].
  apply elem_of_cons in Hin as [Hin|Hin]; [discriminate|]. exact Hin.
Qed.

Lemma saving_line_error (saved : option error) err :
  ErrorSavingCache err ∈ match saved with
                         | Some e => [ErrorSavingCache e]
                         | None => []
                         end ->
  saved = Some err.
Proof.
  destruct saved as [e|]; intros Hin.
  - apply list_elem_of_singleton in Hin. congruence.
  - now apply elem_of_nil in Hin.
Qed.

(** X11: when the run reports that saving the cache failed, the error is
    the one the write met, or the clock's year is outside 0 to 9999 and the
    error is the timestamp encoder's; the readings themselves never make the
    encoding fail. *)
Theorem save_error_causes w err :
  ErrorSavingCache err ∈ stdout (Client.main w) ->
  (time.marshalable (clock_at_store w) = true /\
   ioutil.reason <$> write_fault w = Some err) \/
  (time.marshalable (clock_at_store w) = false /\ err = MarshalerError).
Proof.
  intros Hin.
  destruct (String.eqb_spec (flag_city w) "") as [Hc|Hc].
  { rewrite main_no_city in Hin by done. simpl in Hin.
    apply list_elem_of_singleton in Hin. discriminate. }
  destruct (Client.loadConfig (disk w) "config.json") as [config|e] eqn:Hcfg.
  2:{ rewrite (main_no_config w e) in Hin by done. simpl in Hin.
      apply list_elem_of_singleton in Hin. discriminate. }
  assert (Hpre : ErrorSavingCache err ∉ preamble w).
  { unfold preamble.
    destruct (snd (Client.loadCache (disk w) "cache.json")); intros H.
    - apply list_elem_of_singleton in H. discriminate.
    - now apply elem_of_nil in H. }
  rewrite (main_run w config) in Hin by done.
  destruct (hit w) as [reading|].
  { exfalso. unfold Client.report_cached in Hin.
    unfold not in Hpre.
    destruct (slice_list (Weather reading)); simpl in Hin;
      rewrite ?elem_of_app, ?elem_of_cons, ?elem_of_nil in Hin;
      intuition discriminate. }
  destruct (Client.weatherDataList w config) as [|first rest] eqn:Hl.
  { exfalso. rewrite fetch_and_store_nothing in Hin by done. simpl in Hin.
    apply elem_of_app in Hin as [Hin|Hin]; [done|].
    apply list_elem_of_singleton in Hin. discriminate. }
  assert (Hsaved : forall data,
             match loaded w with
             | Some c => Data c = Some data
             | None => data = ∅
             end ->
             ErrorSavingCache err ∈
               stdout (Client.fetch_and_store w config (preamble w) (loaded w)) ->
             (if time.marshalable (clock_at_store w)
              then ioutil.reason <$> write_fault w
              else Some MarshalerError) = Some err).
  { intros data Hdata Hin'.
    rewrite (fetch_and_store_saves w config _ _ first rest data Hl Hdata)
      in Hin'.
    simpl in Hin'. apply saving_line_in_report in Hin'; [|done].
    apply saving_line_error in Hin'.
    rewrite saveCache_error in Hin'; [exact Hin'|].
    simpl. now apply (stored_in_range w config first rest). }
  assert (Hcases : (if time.marshalable (clock_at_store w)
              then ioutil.reason <$> write_fault w
                    else Some MarshalerError) = Some err).
  { destruct (loaded w) as [[[data|] ts]|] eqn:Hload.
    - now apply (Hsaved data).
    - exfalso. unfold Client.fetch_and_store in Hin. rewrite Hl in Hin.
      simpl in Hin. unfold not in Hpre.
      rewrite ?elem_of_app, ?elem_of_cons, ?elem_of_nil in Hin.
      intuition discriminate.
    - now apply (Hsaved ∅). }
  destruct (time.marshalable (clock_at_store w)); [left|right]; split;
    congruence.
Qed.

Lemma save_error_causes_witness :
  (time.marshalable (clock_at_store Scenario.read_only) = true /\
   ioutil.reason <$> write_fault Scenario.read_only
   = Some (ErrIO "permission denied")) \/
  (time.marshalable (clock_at_store Scenario.read_only) = false /\
   ErrIO "permission denied" = MarshalerError).
Proof.
  apply save_error_causes.
  replace (stdout (Client.main Scenario.read_only))
    with [AverageTemperatureIn "London"; Temperature 21.5;
          ErrorSavingCache (ErrIO "permission denied")]
    by (vm_compute; reflexivity).
  rewrite !elem_of_cons. auto.
Defined.

(** X7: a failure to write the cache file changes neither the exit code,
    nor the calls made, nor the cache the run ends with.  When the file
    cannot be opened the disk is left as it was.  When the write fails after
    the file was opened, a run that fetched and ended with code 0, with the
    clock's year within 0 to 9999, leaves [cache.json] cut short: what the
    file held before is lost, and loading it again returns a syntax error. *)
Theorem write_fault_is_not_fatal w fault :
  exit (Client.main (with_write_fault fault w)) = exit (Client.main w) /\
  requests (Client.main (with_write_fault fault w)) = requests (Client.main w) /\
  cache_var (Client.main (with_write_fault fault w)) = cache_var (Client.main w) /\
  (forall f,
      fault = Some f ->
      ioutil.stage f = ioutil.Opening ->
      disk_after (Client.main (with_write_fault fault w)) = disk w) /\
  (forall f,
      fault = Some f ->
      ioutil.stage f = ioutil.Writing ->
      successful_fetch (Client.main w) ->
      time.marshalable (clock_at_store w) = true ->
      disk_after (Client.main (with_write_fault fault w))
      = <["cache.json" := Regular json.Malformed]> (disk w) /\
      Client.loadCache (disk_after (Client.main (with_write_fault fault w)))
        "cache.json" = (None, Some SyntaxError)).
Proof.
  set (w' := with_write_fault fault w).
  assert (Hsame : exit (Client.main w') = exit (Client.main w) /\
                  requests (Client.main w') = requests (Client.main w) /\
                  cache_var (Client.main w') = cache_var (Client.main w)).
  { destruct (String.eqb_spec (flag_city w) "") as [Hc|Hc].
    { rewrite (main_no_city w), (main_no_city w') by done. done. }
    destruct (Client.loadConfig (disk w) "config.json") as [config|err] eqn:Hcfg.
    2:{ rewrite (main_no_config w err), (main_no_config w' err) by done. done. }
    rewrite (main_run w config), (main_run w' config) by done.
    change (hit w') with (hit w). change (preamble w') with (preamble w).
    change (loaded w') with (loaded w).
    destruct (hit w) as [reading|].
    { change (disk w') with (disk w). unfold Client.report_cached.
      destruct (slice_list (Weather reading)); done. }
    rewrite !fetch_and_store_exit, !fetch_and_store_requests.
    change (Client.weatherDataList w' config)
      with (Client.weatherDataList w config).
    repeat split; try done.
    unfold Client.fetch_and_store.
    change (Client.weatherDataList w' config)
      with (Client.weatherDataList w config).
    destruct (Client.weatherDataList w config) as [|first rest]; [done|].
    destruct (loaded w) as [[[d|] ts]|]; simpl; try done;
      repeat match goal with
             | |- context [Client.saveCache ?a ?b ?c ?d] =>
                 destruct (Client.saveCache a b c d) as [[?|] ?]
             end; done. }
  destruct Hsame as (Hexit & Hreq & Hvar).
  split; [exact Hexit|]. split; [exact Hreq|]. split; [exact Hvar|]. split.
  - intros f Hf Hstage.
    destruct (String.eqb_spec (flag_city w) "") as [Hc|Hc].
    { now rewrite (main_no_city w') by done. }
    destruct (Client.loadConfig (disk w) "config.json") as [config|err] eqn:Hcfg.
    2:{ now rewrite (main_no_config w' err) by done. }
    rewrite (main_run w' config) by done.
    destruct (hit w') as [reading|].
    { unfold Client.report_cached.
      now destruct (slice_list (Weather reading)). }
    unfold Client.fetch_and_store.
    destruct (Client.weatherDataList w' config) as [|first rest]; [done|].
    change (write_fault w') with fault. rewrite Hf.
    destruct (loaded w') as [[[d|] ts]|]; simpl; try done;
      unfold Client.saveCache, ioutil.WriteFile;
      destruct (json.MarshalIndent json.of_Cache _); simpl; try done;
      now rewrite Hstage.
  - intros f Hf Hstage [Hfetch Hend] Hyear.
    assert (Hs' : successful_fetch (Client.main w')).
    { split; [unfold fetches; now rewrite Hreq|now rewrite Hexit]. }
    destruct (successful_fetch_inv w' Hs')
      as (config & first & rest & data & _ & _ & Hl & Hdata & _ & Hdisk).
    rewrite Hdisk. change (write_fault w') with fault. rewrite Hf.
    change (disk w') with (disk w).
    pose proof (MarshalIndent_ok
                  {| Data := Some (<[flag_city w' := first]> data);
                     Timestamp := clock_at_store w' |}
                  (stored_in_range w' config first rest data Hl Hdata) Hyear)
      as Hok.
    unfold Client.saveCache, ioutil.WriteFile.
    destruct (json.MarshalIndent json.of_Cache _) as [doc|]; [|discriminate].
    simpl. rewrite Hstage. split; [reflexivity|].
    unfold Client.loadCache, ioutil.ReadFile. now rewrite lookup_insert_eq.
Qed.

(** A cache ten minutes old holds London; the disk fills up while the run
    writes the new one. *)
Lemma write_fault_is_not_fatal_witness :
  exit (Client.main (with_write_fault (Some Scenario.disk_full) Scenario.stale))
    = Exit 0 /\
  is_ok (ioutil.ReadFile (disk Scenario.stale) "cache.json") = true /\
  disk_after
    (Client.main (with_write_fault (Some Scenario.disk_full) Scenario.stale))
    = <["cache.json" := Regular json.Malformed]> (disk Scenario.stale) /\
  Client.loadCache
    (disk_after
       (Client.main (with_write_fault (Some Scenario.disk_full) Scenario.stale)))
    "cache.json" = (None, Some SyntaxError).
Proof.
  destruct (write_fault_is_not_fatal Scenario.stale (Some Scenario.disk_full))
    as (Hexit & _ & _ & _ & Hcut).
  assert (Hs : successful_fetch (Client.main Scenario.stale))
    by (split; vm_compute; [discriminate|reflexivity]).
  destruct (Hcut Scenario.disk_full eq_refl eq_refl Hs) as [Hdisk Hload];
    [vm_compute; reflexivity|].
  split; [rewrite Hexit; vm_compute; reflexivity|].
  split; [vm_compute; reflexivity|]. split; [exact Hdisk|exact Hload].
Defined.

(** X12: two runs in a row.  When a run fetched, ended with code 0 and met
    no write fault, the clock's year is within 0 to 9999 and every key, name
    and description of the cache it kept is UTF-8, then a run for the same
    city on the disk it left, less than ten minutes after the timestamp it
    stored, loads that very cache, calls no provider and prints the stored
    reading. *)
Theorem next_run_reads_saved_cache w w' config first rest c :
  Client.loadConfig (disk w) "config.json" = Ok config ->
  successful_fetch (Client.main w) ->
  Client.weatherDataList w config = first :: rest ->
  cache_var (Client.main w) = Some c ->
  text_is_utf8 c ->
  time.marshalable (clock_at_store w) = true ->
  write_fault w = None ->
  disk w' = disk_after (Client.main w) ->
  flag_city w' = flag_city w ->
  clock_at_check w' - clock_at_store w < 10 * time.Minute ->
  Client.loadCache (disk w') "cache.json" = (Some c, None) /\
  requests (Client.main w') = [] /\
  stdout (Client.main w') =
    [WeatherInFromCache (Name first);
     Temperature (temperatureCelsius first);
     HumidityPercent (Humidity (Main first))] ++ description_line first.
Proof.
  intros Hcfg Hs Hl Hvar Htext Hyear Hfault Hdisk Hcity Hclock.
  destruct (successful_fetch_inv w Hs)
    as (config' & first' & rest' & data & Hcfg' & _ & Hl' & Hdata & Hvar'
        & Hafter).
  assert (config' = config) as -> by congruence.
  assert (first' = first) as -> by congruence.
  rewrite Hvar' in Hvar. injection Hvar as <-.
  set (stored := {| Data := Some (<[flag_city w := first]> data);
                    Timestamp := clock_at_store w |}) in *.
  assert (Henc : Cache_encodable stored).
  { split; [exact Hyear|]. intros city r Hr.
    destruct (Htext city r Hr) as (Hk & Hn & Hd).
    destruct (stored_in_range w config first rest data Hl Hdata city r Hr)
      as [Hf Hi].
    repeat split; assumption. }
  destruct (Cache_roundtrip stored Henc) as (v & Hv & Hd).
  assert (Hdisk' : disk w' = <["cache.json" := Regular (json.Text v)]> (disk w)).
  { rewrite Hdisk, Hafter. unfold Client.saveCache, json.MarshalIndent,
      ioutil.WriteFile. now rewrite Hv, Hfault. }
  assert (Hload : Client.loadCache (disk w') "cache.json" = (Some stored, None)).
  { unfold Client.loadCache, ioutil.ReadFile.
    rewrite Hdisk', lookup_insert_eq. simpl. now rewrite Hd. }
  assert (Hcfg2 : Client.loadConfig (disk w') "config.json" = Ok config).
  { rewrite <- Hcfg. unfold Client.loadConfig, ioutil.ReadFile.
    now rewrite Hdisk', lookup_insert_ne. }
  assert (Hhit : hit w' = Some first).
  { apply hit_Some. exists stored. unfold loaded. rewrite Hload.
    split; [done|]. split.
    - now apply fresh_iff.
    - simpl. rewrite Hcity. apply lookup_insert_eq. }
  assert (Hne : flag_city w' <> "").
  { rewrite Hcity. destruct Hs as [Hf _].
    now destruct (fetches_inv w Hf) as (? & ? & _). }
  destruct (main_hit w' config first Hne Hcfg2 Hhit) as (Hreq & Hout & _).
  split; [exact Hload|]. split; [exact Hreq|].
  rewrite Hout. unfold preamble. now rewrite Hload.
Qed.

Lemma next_run_reads_saved_cache_witness :
  Client.loadCache (disk Scenario.second_run) "cache.json"
    = (Some {| Data := Some {["London" := Scenario.london_reading]};
               Timestamp := clock_at_store Scenario.first_run |}, None) /\
  requests (Client.main Scenario.second_run) = [] /\
  stdout (Client.main Scenario.second_run) =
    [WeatherInFromCache (Name Scenario.london_reading);
     Temperature (temperatureCelsius Scenario.london_reading);
     HumidityPercent (Humidity (Main Scenario.london_reading))]
    ++ description_line Scenario.london_reading.
Proof.
  apply (next_run_reads_saved_cache Scenario.first_run Scenario.second_run
           Scenario.keys Scenario.london_reading []);
    try (vm_compute; reflexivity).
  - split; vm_compute; [discriminate|reflexivity].
  - intros city r H. simpl in H.
    apply lookup_singleton_Some in H as [<- <-].
    repeat split; try (vm_compute; reflexivity). repeat constructor.
Defined.

(** X13: the timestamp is one for the whole cache.  After a run that
    fetched one city and ended with code 0, every other city the loaded
    cache held counts as fresh again: a run for such a city that loads the
    stored cache less than ten minutes later finds its old entry and calls
    no provider, however old the loaded cache was. *)
Theorem fetch_refreshes_every_city w w' c0 other reading :
  successful_fetch (Client.main w) ->
  loaded w = Some c0 ->
  map_index (Data c0) other = Some reading ->
  other <> flag_city w ->
  other <> "" ->
  loaded w' = cache_var (Client.main w) ->
  flag_city w' = other ->
  is_ok (Client.loadConfig (disk w') "config.json") = true ->
  clock_at_check w' - clock_at_store w < 10 * time.Minute ->
  hit w' = Some reading /\
  requests (Client.main w') = [] /\
  cache_var (Client.main w') = cache_var (Client.main w).
Proof.
  intros Hs Hload Hentry Hother Hne Hload' Hcity Hcfg Hclock.
  destruct (successful_fetch_inv w Hs)
    as (config & first & rest & data & _ & _ & _ & Hdata & Hvar & _).
  rewrite Hload in Hdata. rewrite Hdata in Hentry. simpl in Hentry.
  rewrite Hvar in Hload'.
  assert (Hhit : hit w' = Some reading).
  { apply hit_Some. eexists. split; [exact Hload'|]. split.
    - now apply fresh_iff.
    - simpl. rewrite Hcity. now rewrite lookup_insert_ne. }
  destruct (Client.loadConfig (disk w') "config.json") as [config'|] eqn:Hc;
    [|discriminate].
  destruct (main_hit w' config' reading) as (Hreq & _ & _ & Hkeep & _);
    try done.
  { now rewrite Hcity. }
  split; [exact Hhit|]. split; [exact Hreq|].
  now rewrite Hkeep, Hload', Hvar.
Qed.

Lemma fetch_refreshes_every_city_witness :
  hit Scenario.paris_next = Some Scenario.paris_cached /\
  requests (Client.main Scenario.paris_next) = [] /\
  cache_var (Client.main Scenario.paris_next)
    = cache_var (Client.main Scenario.old_paris).
Proof.
  apply (fetch_refreshes_every_city Scenario.old_paris Scenario.paris_next
           {| Data := Some {["Paris" := Scenario.paris_cached]};
              Timestamp := Scenario.noon - 2 * 24 * 60 * time.Minute |}
           "Paris" Scenario.paris_cached);
    try (vm_compute; reflexivity); try discriminate.
  split; vm_compute; [discriminate|reflexivity].
Defined.
